(** * multimodal-rag-agent: the MCP video engine

    A shallow embedding of the ingestion, retrieval and clip-extraction
    code of [multimodal_mcp] (config.py, validators.py, tools.py,
    video/search_video.py, video/clip_extractor.py,
    video/ingestion/video_processor.py), followed by the properties of
    the specification that concern it.

    Conventions of the embedding.
    - Python [float] values (similarities, times) are rationals [Q]; the
      code only adds, subtracts, divides by 1000.0 and compares them.
    - A Pixeltable table is the list of its rows in insertion order.  The
      frame and audio views are Pixeltable views over the video table, so
      their rows are derived from the rows of [video_table].
    - Python code runs in the monad [M]: a state ([World]) that survives
      exceptions, and a result that is either a value or a raised [exn].
    - Every call that leaves the program (Pixeltable, ffmpeg, image
      decoding, the file system of the clip directory) is a [external]
      step: it consumes one entry of the fault schedule of the world and
      raises the exception found there, if any. *)

From Stdlib Require Import String Ascii List ZArith QArith Bool Lia Lqa.
From Stdlib Require Import Sorting.Sorted Sorting.Permutation.
Import ListNotations.

Local Open Scope list_scope.
Local Open Scope string_scope.

(* ===================================================================== *)
(** ** Python primitives *)
(* ===================================================================== *)

Module Py.

(** [str.isspace] on the ASCII range. *)
Definition isspace (c : ascii) : bool :=
  let n := nat_of_ascii c in
  ((9 <=? n) && (n <=? 13) || (28 <=? n) && (n <=? 32))%nat.

Fixpoint lstrip_list (l : list ascii) : list ascii :=
  match l with
  | c :: l' => if isspace c then lstrip_list l' else l
  | [] => []
  end.

(** [s.strip()] *)
Definition strip (s : string) : string :=
  string_of_list_ascii
    (rev (lstrip_list (rev (lstrip_list (list_ascii_of_string s))))).

(** [not s or not s.strip()] *)
Definition blank (s : string) : bool :=
  (s =? "") || (strip s =? "").

(** [x or default] for an optional integer: [None] and [0] are falsy. *)
Definition or_default (x : option nat) (default : nat) : nat :=
  match x with
  | Some (S n) => S n
  | _ => default
  end.

(** Truthiness of an optional list: [None] and [[]] are falsy. *)
Definition truthy_list {A} (x : option (list A)) : bool :=
  match x with
  | Some (_ :: _) => true
  | _ => false
  end.

(** Truthiness of an optional string: [None] and [""] are falsy. *)
Definition truthy_str (x : option string) : bool :=
  match x with
  | Some s => negb (s =? "")
  | None => false
  end.

(** [sep.join(l)] *)
Definition join (sep : string) (l : list string) : string :=
  String.concat sep l.

Definition nl : string := String "010" EmptyString.

End Py.

(* ===================================================================== *)
(** ** Exceptions and tool results *)
(* ===================================================================== *)

(** The exception classes the code distinguishes in its [except] clauses;
    [Exception] stands for every other subclass of [Exception]. *)
Inductive exn : Type :=
| ValidationError (msg : string)
| ClipExtractionError (msg : string)
| RuntimeError (msg : string)
| OSError (msg : string)
| IndexError (msg : string)
| Exception (msg : string).

(** [str(e)] *)
Definition str (e : exn) : string :=
  match e with
  | ValidationError m | ClipExtractionError m | RuntimeError m
  | OSError m | IndexError m | Exception m => m
  end.

Inductive result (A : Type) : Type :=
| Ok (a : A)
| Raise (e : exn).
Arguments Ok {A} a.
Arguments Raise {A} e.

(** models.py: [ToolResult] *)
Inductive ToolType := text | video_t.

Record ToolResult := {
  type : ToolType;
  content : string
}.

(* ===================================================================== *)
(** ** config.py *)
(* ===================================================================== *)

Record Settings := {
  DELTA_SECONDS_FRAME_INTERVAL : Q;
  SPEECH_SIMILARITY_SEARCH_TOP_K : nat;
  CAPTION_SIMILARITY_SEARCH_TOP_K : nat;
  IMAGE_SIMILARITY_SEARCH_TOP_K : nat;
  VIDEO_CLIP_SPEECH_SEARCH_TOP_K : nat;
  VIDEO_CLIP_CAPTION_SEARCH_TOP_K : nat;
  VIDEO_CLIP_IMAGE_SEARCH_TOP_K : nat;
  QUESTION_ANSWER_TOP_K : nat
}.

(** The defaults of [class Settings]. *)
Definition default_settings : Settings := {|
  DELTA_SECONDS_FRAME_INTERVAL := 5;
  SPEECH_SIMILARITY_SEARCH_TOP_K := 1;
  CAPTION_SIMILARITY_SEARCH_TOP_K := 1;
  IMAGE_SIMILARITY_SEARCH_TOP_K := 1;
  VIDEO_CLIP_SPEECH_SEARCH_TOP_K := 1;
  VIDEO_CLIP_CAPTION_SEARCH_TOP_K := 1;
  VIDEO_CLIP_IMAGE_SEARCH_TOP_K := 1;
  QUESTION_ANSWER_TOP_K := 3
|}.

(* ===================================================================== *)
(** ** Tables (video/ingestion/models.py, video_processor.py) *)
(* ===================================================================== *)

Inductive VideoStatus := PROCESSING | DONE | FAILED.

Definition VideoStatus_eqb (a b : VideoStatus) : bool :=
  match a, b with
  | PROCESSING, PROCESSING | DONE, DONE | FAILED, FAILED => true
  | _, _ => false
  end.

Definition Image := string.

(** Rows of [global_video_table]. *)
Module VideoTable.
Record row := {
  video_id : string;
  video : string;
  video_name : string;
  status : VideoStatus;
  processed_at : option Z
}.
End VideoTable.

(** Rows of [global_frames_view_table]. *)
Module FramesView.
Record row := {
  video_id : string;
  pos_msec : Z;
  frame : Image;
  caption : string
}.
End FramesView.

(** Rows of [global_audio_view_table]. *)
Module AudioView.
Record row := {
  video_id : string;
  start_time_sec : Q;
  end_time_sec : Q;
  audio_chunk_text : string
}.
End AudioView.

(** The dictionaries the search methods return. *)
Module SearchResult.
Record t := {
  video_id : string;
  start_time : Q;
  end_time : Q;
  similarity : Q
}.
End SearchResult.

Module CaptionInfo.
Record t := {
  video_id : string;
  caption : string;
  similarity : Q
}.
End CaptionInfo.

Module SpeechInfo.
Record t := {
  video_id : string;
  text : string;
  similarity : Q
}.
End SpeechInfo.

(** One successful call of [extract_video_clip]. *)
Record Clip := {
  clip_video_path : string;
  clip_start_time : Q;
  clip_end_time : Q;
  clip_output_path : string
}.

(* ===================================================================== *)
(** ** The environment: what the code calls but does not define *)
(* ===================================================================== *)

(** What [os], [pathlib] and PyAV report about a path. *)
Record FileStat := {
  is_file : bool;
  readable : bool;
  st_size : Z;
  suffix_lower : string;
  av_opens : bool;
  video_streams : nat;
  duration : option Z;
  frames : Z
}.

Record Env := {
  settings : Settings;
  (** file system; [None]: the path does not exist *)
  stat : string -> option FileStat;
  path_stem : string -> string;
  (** [Path(p).resolve()]; [None]: it raises *)
  path_resolve : string -> option string;
  within_shared_media : string -> bool;
  (** [FrameIterator] with the captioning model: position, frame, caption *)
  frame_iterator : string -> list (Z * Image * string);
  (** [AudioSplitter] with transcription: start, end, transcript text *)
  audio_splitter : string -> list (Q * Q * string);
  (** embedding similarity of a column value to the query *)
  text_similarity : string -> string -> Q;
  image_similarity : Image -> Image -> Q;
  decode_image : string -> Image;
  (** [len(base64.b64decode(s))]; [None]: the decoder raises *)
  b64decode_len : string -> option nat;
  (** [name in result_set] of a Pixeltable result set *)
  resultset_contains : string -> list VideoTable.row -> bool;
  uuid4 : nat -> string
}.

(* ===================================================================== *)
(** ** The world and the monad of Python code *)
(* ===================================================================== *)

Record World := {
  (** rows of the video table, in insertion order *)
  video_table : list VideoTable.row;
  (** [datetime.now()] *)
  clock : Z;
  (** outcomes of the external calls still to come; past the end of the
      schedule every call succeeds *)
  faults : list (option exn);
  (** attributes of the [VideoProcessor] singleton *)
  self_video_name : string;
  self_video_id : option string;
  self_video_path : string;
  (** module globals of tools.py: is the singleton constructed? *)
  _video_processor : bool;
  _clip_extractor : bool;
  _question_answerer : bool;
  (** clip directory *)
  uuid_count : nat;
  clips : list Clip
}.

Definition with_video_table (f : list VideoTable.row -> list VideoTable.row)
  (w : World) : World :=
  {| video_table := f (video_table w); clock := clock w; faults := faults w;
     self_video_name := self_video_name w; self_video_id := self_video_id w;
     self_video_path := self_video_path w;
     _video_processor := _video_processor w;
     _clip_extractor := _clip_extractor w;
     _question_answerer := _question_answerer w;
     uuid_count := uuid_count w; clips := clips w |}.

Definition with_clock (c : Z) (w : World) : World :=
  {| video_table := video_table w; clock := c; faults := faults w;
     self_video_name := self_video_name w; self_video_id := self_video_id w;
     self_video_path := self_video_path w;
     _video_processor := _video_processor w;
     _clip_extractor := _clip_extractor w;
     _question_answerer := _question_answerer w;
     uuid_count := uuid_count w; clips := clips w |}.

Definition with_faults (fs : list (option exn)) (w : World) : World :=
  {| video_table := video_table w; clock := clock w; faults := fs;
     self_video_name := self_video_name w; self_video_id := self_video_id w;
     self_video_path := self_video_path w;
     _video_processor := _video_processor w;
     _clip_extractor := _clip_extractor w;
     _question_answerer := _question_answerer w;
     uuid_count := uuid_count w; clips := clips w |}.

Definition with_self_video_name (n : string) (w : World) : World :=
  {| video_table := video_table w; clock := clock w; faults := faults w;
     self_video_name := n; self_video_id := self_video_id w;
     self_video_path := self_video_path w;
     _video_processor := _video_processor w;
     _clip_extractor := _clip_extractor w;
     _question_answerer := _question_answerer w;
     uuid_count := uuid_count w; clips := clips w |}.

Definition with_self_video_id (i : option string) (w : World) : World :=
  {| video_table := video_table w; clock := clock w; faults := faults w;
     self_video_name := self_video_name w; self_video_id := i;
     self_video_path := self_video_path w;
     _video_processor := _video_processor w;
     _clip_extractor := _clip_extractor w;
     _question_answerer := _question_answerer w;
     uuid_count := uuid_count w; clips := clips w |}.

Definition with_self_video_path (p : string) (w : World) : World :=
  {| video_table := video_table w; clock := clock w; faults := faults w;
     self_video_name := self_video_name w; self_video_id := self_video_id w;
     self_video_path := p;
     _video_processor := _video_processor w;
     _clip_extractor := _clip_extractor w;
     _question_answerer := _question_answerer w;
     uuid_count := uuid_count w; clips := clips w |}.

Definition with_singletons (p c q : bool) (w : World) : World :=
  {| video_table := video_table w; clock := clock w; faults := faults w;
     self_video_name := self_video_name w; self_video_id := self_video_id w;
     self_video_path := self_video_path w;
     _video_processor := p; _clip_extractor := c; _question_answerer := q;
     uuid_count := uuid_count w; clips := clips w |}.

Definition with_clips (n : nat) (cs : list Clip) (w : World) : World :=
  {| video_table := video_table w; clock := clock w; faults := faults w;
     self_video_name := self_video_name w; self_video_id := self_video_id w;
     self_video_path := self_video_path w;
     _video_processor := _video_processor w;
     _clip_extractor := _clip_extractor w;
     _question_answerer := _question_answerer w;
     uuid_count := n; clips := cs |}.

Definition M (A : Type) : Type := World -> result A * World.

Definition ret {A} (a : A) : M A := fun w => (Ok a, w).

Definition bind {A B} (m : M A) (k : A -> M B) : M B :=
  fun w =>
    match m w with
    | (Ok a, w') => k a w'
    | (Raise e, w') => (Raise e, w')
    end.

Definition raise {A} (e : exn) : M A := fun w => (Raise e, w).

(** [try: body  except Exception as e: handler e] *)
Definition try_except {A} (body : M A) (handler : exn -> M A) : M A :=
  fun w =>
    match body w with
    | (Ok a, w') => (Ok a, w')
    | (Raise e, w') => handler e w'
    end.

Definition gets {A} (f : World -> A) : M A := fun w => (Ok (f w), w).

Definition modify (f : World -> World) : M unit := fun w => (Ok tt, f w).

Declare Scope py_scope.
Delimit Scope py_scope with py.
Notation "x <- m ;; k" := (bind m (fun x => k))
  (at level 100, m at next level, right associativity) : py_scope.
Notation "m ;; k" := (bind m (fun _ => k))
  (at level 100, right associativity) : py_scope.
Local Open Scope py_scope.

(** A call that leaves the program. *)
Definition external : M unit :=
  fun w =>
    match faults w with
    | [] => (Ok tt, w)
    | None :: fs => (Ok tt, with_faults fs w)
    | Some e :: fs => (Raise e, with_faults fs w)
    end.

(** [datetime.now()] *)
Definition datetime_now : M Z :=
  fun w => (Ok (clock w), with_clock (clock w + 1) w).

(* ===================================================================== *)
(** ** Pixeltable queries *)
(* ===================================================================== *)

Module Pxt.

(** [col.isin(ids)] *)
Definition isin (ids : list string) (v : string) : bool :=
  existsb (String.eqb v) ids.

(** [order_by(sims, asc=False)].  Pixeltable is not part of the
    repository; its ordering is taken as section 4.2 of the specification
    describes the store: descending by score, rows of equal score in
    insertion order. *)
Fixpoint insert_desc {A} (sims : A -> Q) (x : A) (l : list A) : list A :=
  match l with
  | [] => [x]
  | y :: l' =>
      if Qle_bool (sims y) (sims x) then x :: y :: l'
      else y :: insert_desc sims x l'
  end.

Definition order_by_desc {A} (sims : A -> Q) (l : list A) : list A :=
  fold_right (insert_desc sims) [] l.

(** [limit(n)] *)
Definition limit {A} (n : nat) (l : list A) : list A := firstn n l.

(** [query.collect()]: running the query is an external call. *)
Definition collect {A} (rows : list A) : M (list A) :=
  external ;; ret rows.

Section Views.
Variable E : Env.

(** The frame view: one row per sampled frame of every video row. *)
Definition frames_of (v : VideoTable.row) : list FramesView.row :=
  map (fun f : Z * Image * string =>
         let '(pos, img, cap) := f in
         {| FramesView.video_id := VideoTable.video_id v;
            FramesView.pos_msec := pos;
            FramesView.frame := img;
            FramesView.caption := cap |})
      (frame_iterator E (VideoTable.video v)).

Definition frames_view (w : World) : list FramesView.row :=
  flat_map frames_of (video_table w).

(** The audio view: one row per audio chunk of every video row. *)
Definition audio_of (v : VideoTable.row) : list AudioView.row :=
  map (fun a : Q * Q * string =>
         let '(s, e, txt) := a in
         {| AudioView.video_id := VideoTable.video_id v;
            AudioView.start_time_sec := s;
            AudioView.end_time_sec := e;
            AudioView.audio_chunk_text := txt |})
      (audio_splitter E (VideoTable.video v)).

Definition audio_chunks_view (w : World) : list AudioView.row :=
  flat_map audio_of (video_table w).
End Views.

End Pxt.

(* ===================================================================== *)
(** ** video/search_video.py: [VideoSearchEngine] *)
(* ===================================================================== *)

Module VideoSearchEngine.
Section Engine.
Variable E : Env.

(** [__init__]: the tables are looked up (a missing table is a
    [RuntimeError] of the lookup), then counted; an empty table is a
    [RuntimeError]. *)
Definition __init__ : M unit :=
  external ;;
  counts <- try_except
    (external ;;
     v <- gets (fun w => length (video_table w)) ;;
     f <- gets (fun w => length (Pxt.frames_view E w)) ;;
     a <- gets (fun w => length (Pxt.audio_chunks_view E w)) ;;
     ret (v, f, a))
    (fun e => raise (RuntimeError
                       ("Failed to count Pixeltable rows: " ++ str e))) ;;
  let '(video_count, frame_count, audio_count) := counts in
  if ((video_count =? 0) || (frame_count =? 0) || (audio_count =? 0))%nat
  then raise (RuntimeError
                "Pixeltable is initialized but contains no processed data.")
  else ret tt.

(** The [if video_ids: results = results.where(video_id.isin(...))]
    step shared by the five searches. *)
Definition where_video_ids {R} (video_id : R -> string)
  (video_ids : option (list string)) (results : list R) : list R :=
  match video_ids with
  | Some ((_ :: _) as ids) =>
      filter (fun r => Pxt.isin ids (video_id r)) results
  | _ => results
  end.

(** [_get_video_ids_from_names]: the set returned is kept as the list of
    its elements, without repetition; the warning about names that were not
    found is only logged. *)
Definition _get_video_ids_from_names (video_names : list string)
  : M (list string) :=
  match video_names with
  | [] => ret []
  | _ :: _ =>
      rows <- gets video_table ;;
      results <- Pxt.collect
        (filter (fun r => Pxt.isin video_names (VideoTable.video_name r))
                rows) ;;
      ret (nodup string_dec (map VideoTable.video_id results))
  end.

(** The dictionaries built from the collected rows. *)
Definition speech_clip (sims : AudioView.row -> Q) (r : AudioView.row)
  : SearchResult.t :=
  {| SearchResult.video_id := AudioView.video_id r;
     SearchResult.start_time := AudioView.start_time_sec r;
     SearchResult.end_time := AudioView.end_time_sec r;
     SearchResult.similarity := sims r |}.

(** The same dictionary in [search_by_image] and [search_by_caption]. *)
Definition frame_clip (sims : FramesView.row -> Q)
  (entry : FramesView.row) : SearchResult.t :=
  {| SearchResult.video_id := FramesView.video_id entry;
     SearchResult.start_time :=
       inject_Z (FramesView.pos_msec entry) / 1000
       - DELTA_SECONDS_FRAME_INTERVAL (settings E);
     SearchResult.end_time :=
       inject_Z (FramesView.pos_msec entry) / 1000
       + DELTA_SECONDS_FRAME_INTERVAL (settings E);
     SearchResult.similarity := sims entry |}.

Definition speech_info (sims : AudioView.row -> Q) (entry : AudioView.row)
  : SpeechInfo.t :=
  {| SpeechInfo.video_id := AudioView.video_id entry;
     SpeechInfo.text := AudioView.audio_chunk_text entry;
     SpeechInfo.similarity := sims entry |}.

Definition caption_info (sims : FramesView.row -> Q)
  (entry : FramesView.row) : CaptionInfo.t :=
  {| CaptionInfo.video_id := FramesView.video_id entry;
     CaptionInfo.caption := FramesView.caption entry;
     CaptionInfo.similarity := sims entry |}.

Definition search_by_speech (query : string) (top_k : option nat)
  (video_ids : option (list string)) : M (list SearchResult.t) :=
  let top_k :=
    Py.or_default top_k (SPEECH_SIMILARITY_SEARCH_TOP_K (settings E)) in
  let sims := fun r => text_similarity E (AudioView.audio_chunk_text r) query in
  results <- gets (Pxt.audio_chunks_view E) ;;
  let results := where_video_ids AudioView.video_id video_ids results in
  let results := Pxt.order_by_desc sims results in
  rows <- Pxt.collect (Pxt.limit top_k results) ;;
  ret (map (speech_clip sims) rows).

Definition search_by_image (image_base64 : string) (top_k : option nat)
  (video_ids : option (list string)) : M (list SearchResult.t) :=
  let top_k :=
    Py.or_default top_k (IMAGE_SIMILARITY_SEARCH_TOP_K (settings E)) in
  query_image <- (external ;; ret (decode_image E image_base64)) ;;
  let sims := fun r => image_similarity E (FramesView.frame r) query_image in
  results <- gets (Pxt.frames_view E) ;;
  let results := where_video_ids FramesView.video_id video_ids results in
  let results := Pxt.order_by_desc sims results in
  rows <- Pxt.collect (Pxt.limit top_k results) ;;
  ret (map (frame_clip sims) rows).

Definition search_by_caption (query : string) (top_k : option nat)
  (video_ids : option (list string)) : M (list SearchResult.t) :=
  let top_k :=
    Py.or_default top_k (CAPTION_SIMILARITY_SEARCH_TOP_K (settings E)) in
  let sims := fun r => text_similarity E (FramesView.caption r) query in
  results <- gets (Pxt.frames_view E) ;;
  let results := where_video_ids FramesView.video_id video_ids results in
  let results := Pxt.order_by_desc sims results in
  rows <- Pxt.collect (Pxt.limit top_k results) ;;
  ret (map (frame_clip sims) rows).

Definition get_speech_info (query : string) (top_k : option nat)
  (video_ids : option (list string)) : M (list SpeechInfo.t) :=
  let top_k :=
    Py.or_default top_k (SPEECH_SIMILARITY_SEARCH_TOP_K (settings E)) in
  let sims := fun r => text_similarity E (AudioView.audio_chunk_text r) query in
  results <- gets (Pxt.audio_chunks_view E) ;;
  let results := where_video_ids AudioView.video_id video_ids results in
  let results := Pxt.order_by_desc sims results in
  rows <- Pxt.collect (Pxt.limit top_k results) ;;
  ret (map (speech_info sims) rows).

Definition get_caption_info (query : string) (top_k : option nat)
  (video_ids : option (list string)) : M (list CaptionInfo.t) :=
  let top_k :=
    Py.or_default top_k (CAPTION_SIMILARITY_SEARCH_TOP_K (settings E)) in
  let sims := fun r => text_similarity E (FramesView.caption r) query in
  results <- gets (Pxt.frames_view E) ;;
  let results := where_video_ids FramesView.video_id video_ids results in
  let results := Pxt.order_by_desc sims results in
  rows <- Pxt.collect (Pxt.limit top_k results) ;;
  ret (map (caption_info sims) rows).

End Engine.
End VideoSearchEngine.

(* ===================================================================== *)
(** ** video/clip_extractor.py *)
(* ===================================================================== *)

Module VideoClipExtractor.
Section Extractor.
Variable E : Env.

Definition __init__ : M unit :=
  try_except (VideoSearchEngine.__init__ E)
    (fun e =>
       match e with
       | RuntimeError _ =>
           raise (ClipExtractionError
             "Video search is not available. Please ensure videos are processed first.")
       | _ => raise e
       end) ;;
  (* ai_videos_dir.mkdir(parents=True, exist_ok=True) *)
  external.

Definition _get_video_path (video_id : string) : M string :=
  rows <- gets video_table ;;
  results <- Pxt.collect
    (filter (fun r => VideoTable.video_id r =? video_id) rows) ;;
  match results with
  | r :: _ =>
      if VideoTable.video r =? ""
      then raise (ClipExtractionError
                    ("Video not found for video_id: " ++ video_id))
      else ret (VideoTable.video r)
  | [] => raise (ClipExtractionError
                   ("Video not found for video_id: " ++ video_id))
  end.

(** The path returned is relative to the shared media directory. *)
Definition _extract_clip (video_path : string) (start_time end_time : Q)
  : M string :=
  n <- gets uuid_count ;;
  let destination := "videos/ai_responses/" ++ uuid4 E n ++ ".mp4" in
  modify (fun w => with_clips (S n) (clips w) w) ;;
  try_except
    (external ;;
     modify (fun w =>
       with_clips (uuid_count w)
         ({| clip_video_path := video_path;
             clip_start_time := start_time;
             clip_end_time := end_time;
             clip_output_path := destination |} :: clips w) w))
    (fun e =>
       match e with
       | OSError _ =>
           raise (ClipExtractionError
             "Failed to extract video clip. The video file may be corrupted or inaccessible.")
       | _ =>
           raise (ClipExtractionError
             "An unexpected error occurred while extracting the video clip.")
       end) ;;
  ret destination.

(** [l[0]] *)
Definition item0 {A} (l : list A) : M A :=
  match l with
  | x :: _ => ret x
  | [] => raise (IndexError "list index out of range")
  end.

Definition _select_best_clip
  (speech_results caption_results : list SearchResult.t)
  : M SearchResult.t :=
  let speech_sim :=
    match speech_results with
    | r :: _ => SearchResult.similarity r
    | [] => 0
    end in
  let caption_sim :=
    match caption_results with
    | r :: _ => SearchResult.similarity r
    | [] => 0
    end in
  if Qle_bool caption_sim speech_sim
  then item0 speech_results
  else item0 caption_results.

Definition extract_from_text_query (query : string)
  (video_ids : option (list string)) : M ToolResult :=
  try_except
    (speech_results <- VideoSearchEngine.search_by_speech E query
        (Some (VIDEO_CLIP_SPEECH_SEARCH_TOP_K (settings E))) video_ids ;;
     caption_results <- VideoSearchEngine.search_by_caption E query
        (Some (VIDEO_CLIP_CAPTION_SEARCH_TOP_K (settings E))) video_ids ;;
     match speech_results, caption_results with
     | [], [] =>
         ret {| type := text;
                content := "No matching video segments found. Try rephrasing your query or check if videos are processed." |}
     | _, _ =>
         best_clip <- _select_best_clip speech_results caption_results ;;
         video_path <- _get_video_path (SearchResult.video_id best_clip) ;;
         relative_path <- _extract_clip video_path
            (SearchResult.start_time best_clip)
            (SearchResult.end_time best_clip) ;;
         ret {| type := video_t; content := relative_path |}
     end)
    (fun e =>
       match e with
       | ClipExtractionError _ => ret {| type := text; content := str e |}
       | _ =>
           ret {| type := text;
                  content := "An unexpected error occurred. Please try again or contact support." |}
       end).

Definition extract_from_image (image_base64 : string)
  (video_ids : option (list string)) : M ToolResult :=
  try_except
    (results <- VideoSearchEngine.search_by_image E image_base64
        (Some (VIDEO_CLIP_IMAGE_SEARCH_TOP_K (settings E))) video_ids ;;
     match results with
     | [] =>
         ret {| type := text;
                content := "No visually similar video segments found. Try a different image or check if videos are processed." |}
     | top_clip :: _ =>
         video_path <- _get_video_path (SearchResult.video_id top_clip) ;;
         relative_path <- _extract_clip video_path
            (SearchResult.start_time top_clip)
            (SearchResult.end_time top_clip) ;;
         ret {| type := video_t; content := relative_path |}
     end)
    (fun e =>
       match e with
       | ClipExtractionError _ => ret {| type := text; content := str e |}
       | _ =>
           ret {| type := text;
                  content := "An unexpected error occurred. Please try again or contact support." |}
       end).

End Extractor.
End VideoClipExtractor.

Module VideoQuestionAnswerer.
Section Answerer.
Variable E : Env.

Definition __init__ : M unit :=
  try_except (VideoSearchEngine.__init__ E)
    (fun e =>
       match e with
       | RuntimeError _ =>
           raise (ClipExtractionError
             "Video search is not available. Please ensure videos are processed first.")
       | _ => raise e
       end).

(** The loop body of [_format_answer_with_sources]: the name under
    which one entry is cited. *)
Definition video_name_of (entry : CaptionInfo.t) : M string :=
  rows <- gets video_table ;;
  video_result <- Pxt.collect
    (filter (fun r => VideoTable.video_id r =? CaptionInfo.video_id entry)
            rows) ;;
  match video_result with
  | r :: _ =>
      if resultset_contains E "video_name" video_result
      then ret (VideoTable.video_name r)
      else ret "Unknown"
  | [] => ret "Unknown"
  end.

Fixpoint video_names (caption_info : list CaptionInfo.t)
  : M (list string) :=
  match caption_info with
  | [] => ret []
  | entry :: rest =>
      n <- video_name_of entry ;;
      ns <- video_names rest ;;
      ret (n :: ns)
  end.

Definition format_entry (p : string * CaptionInfo.t) : string :=
  "Video: " ++ fst p ++ Py.nl ++ "Content: " ++ CaptionInfo.caption (snd p).

Definition _format_answer_with_sources (caption_info : list CaptionInfo.t)
  : M string :=
  video_name_list <- video_names caption_info ;;
  ret (Py.join (Py.nl ++ Py.nl)
         (map format_entry (combine video_name_list caption_info))).

Definition answer_question (query : string)
  (video_ids : option (list string)) : M ToolResult :=
  try_except
    (caption_info <- VideoSearchEngine.get_caption_info E query
        (Some (QUESTION_ANSWER_TOP_K (settings E))) video_ids ;;
     match caption_info with
     | [] =>
         ret {| type := text;
                content := "No relevant information found in the videos. Try rephrasing your question or check if videos are processed." |}
     | _ =>
         answer <- _format_answer_with_sources caption_info ;;
         ret {| type := text; content := answer |}
     end)
    (fun _ =>
       ret {| type := text;
              content := "An unexpected error occurred while processing your question. Please try again." |}).

End Answerer.
End VideoQuestionAnswerer.

(* ===================================================================== *)
(** ** video/ingestion/helper.py *)
(* ===================================================================== *)

Module Helper.





End Helper.

(* ===================================================================== *)
(** ** video/ingestion/video_processor.py: [VideoProcessor] *)
(* ===================================================================== *)

Module VideoProcessor.
Section Processor.
Variable E : Env.

(** Creating or loading the three tables: Pixeltable calls only. *)
Definition _ensure_dirs_and_tables_exist : M unit := external.

Definition __init__ : M unit :=
  modify (with_self_video_name "") ;;
  modify (with_self_video_id None) ;;
  modify (with_self_video_path "") ;;
  _ensure_dirs_and_tables_exist.

Definition valid_extensions : list string :=
  [".mp4"; ".avi"; ".mov"; ".mkv"; ".webm"; ".m4v"; ".flv"].

Definition max_size : Z := 5 * 1024 * 1024 * 1024.

Definition _validate_video_file (video_path : string) : bool * string :=
  match stat E video_path with
  | None => (false, "Video file not found: " ++ video_path)
  | Some st =>
      if negb (is_file st) then
        (false, "Path is not a file: " ++ video_path)
      else if negb (readable st) then
        (false, "Video file is not readable: " ++ video_path)
      else if (st_size st =? 0)%Z then
        (false, "Video file is empty: " ++ video_path)
      else if (max_size <? st_size st)%Z then
        (false, "Video file too large (max 5GB): " ++ video_path)
      else if negb (existsb (String.eqb (suffix_lower st)) valid_extensions)
      then (false, "Unsupported video format: " ++ suffix_lower st)
      else (true, "")
  end.

Definition _validate_video_format (video_path : string) : bool * string :=
  match stat E video_path with
  | None => (false, "Failed to validate video")
  | Some st =>
      if negb (av_opens st) then
        (false, "Invalid video format or corrupted file")
      else if (video_streams st =? 0)%nat then
        (false, "No video streams found in file")
      else
        match duration st with
        | None =>
            if (frames st =? 0)%Z
            then (false, "Video appears to be empty or corrupted")
            else (true, "")
        | Some _ => (true, "")
        end
  end.

(** [video_table.delete(where=video_table.video_id == video_id)]; the
    rows of the views go with the rows they derive from. *)
Definition rows_without (video_id : string) (rows : list VideoTable.row)
  : list VideoTable.row :=
  filter (fun r => negb (VideoTable.video_id r =? video_id)) rows.

Definition delete_where_video_id (video_id : string) : M unit :=
  external ;;
  modify (with_video_table (rows_without video_id)).

(** [self.video_table] is set by [__init__], so [if self.video_table:]
    is taken. *)
Definition _cleanup_video (video_id : string) : M unit :=
  try_except (delete_where_video_id video_id) (fun _ => ret tt).

Definition delete_video (video_id : string) : M bool :=
  try_except
    (if video_id =? "" then ret false
     else
       rows <- gets video_table ;;
       existing <- Pxt.collect
         (filter (fun r => VideoTable.video_id r =? video_id) rows) ;;
       match existing with
       | [] => ret false
       | _ :: _ => _cleanup_video video_id ;; ret true
       end)
    (fun _ => ret false).

Definition _is_already_added : M bool :=
  rows <- gets video_table ;;
  name <- gets self_video_name ;;
  existing <- Pxt.collect
    (filter (fun r => VideoTable.video_name r =? name) rows) ;;
  match existing with
  | [] => ret false
  | r :: _ => ret (VideoStatus_eqb (VideoTable.status r) DONE)
  end.

(** [video_table.where(video_id == self.video_id).update({...})] *)
Definition rows_updated (vid : option string) (st : VideoStatus)
  (now : Z) (rows : list VideoTable.row) : list VideoTable.row :=
  map (fun r =>
         match vid with
         | Some v =>
             if VideoTable.video_id r =? v
             then {| VideoTable.video_id := VideoTable.video_id r;
                     VideoTable.video := VideoTable.video r;
                     VideoTable.video_name := VideoTable.video_name r;
                     VideoTable.status := st;
                     VideoTable.processed_at := Some now |}
             else r
         | None => r
         end) rows.

Definition update_status (st : VideoStatus) : M unit :=
  vid <- gets self_video_id ;;
  now <- datetime_now ;;
  external ;;
  modify (with_video_table (rows_updated vid st now)).

Definition _mark_processing : M unit := update_status PROCESSING.

Definition _mark_done : M unit := update_status DONE.

Definition _mark_failed : M unit :=
  vid <- gets self_video_id ;;
  if negb (Py.truthy_str vid) then ret tt
  else try_except (update_status FAILED) (fun _ => ret tt).

(** [video_table.insert([row])] *)
Definition insert (r : VideoTable.row) : M unit :=
  external ;;
  modify (with_video_table (fun rows => (rows ++ [r])%list)).

(** The [try] block of [add_video]. *)
Definition add_video_try (video_path video_id : string) : M bool :=
  _ensure_dirs_and_tables_exist ;;
  already <- _is_already_added ;;
  if already then ret true
  else
    rows <- gets video_table ;;
    name <- gets self_video_name ;;
    existing <- Pxt.collect
      (filter (fun r => VideoTable.video_name r =? name) rows) ;;
    match existing with
    | [] => ret tt
    | r :: _ => _cleanup_video (VideoTable.video_id r)
    end ;;
    modify (with_self_video_id (Some video_id)) ;;
    name <- gets self_video_name ;;
    insert {| VideoTable.video_id := video_id;
              VideoTable.video := video_path;
              VideoTable.video_name := name;
              VideoTable.status := PROCESSING;
              VideoTable.processed_at := None |} ;;
    _mark_done ;;
    ret true.

(** The [except Exception] block of [add_video]. *)
Definition add_video_except (e : exn) : M bool :=
  vid <- gets self_video_id ;;
  match vid with
  | Some v => if Py.truthy_str vid then _cleanup_video v else ret tt
  | None => ret tt
  end ;;
  try_except
    (vid <- gets self_video_id ;;
     if Py.truthy_str vid then _mark_failed else ret tt)
    (fun _ => ret tt) ;;
  ret false.

Definition add_video (video_path video_id : string) : M bool :=
  let '(is_valid, error_msg) := _validate_video_file video_path in
  if negb is_valid then ret false
  else
    let '(is_valid, error_msg) := _validate_video_format video_path in
    if negb is_valid then ret false
    else
      modify (with_self_video_path video_path) ;;
      modify (with_self_video_name (path_stem E video_path)) ;;
      try_except (add_video_try video_path video_id) add_video_except.

End Processor.
End VideoProcessor.

(* ===================================================================== *)
(** ** validators.py *)
(* ===================================================================== *)

Module VideoPathValidator.
Section V.
Variable E : Env.

Definition validate (video_path : string) : M string :=
  if Py.blank video_path then
    raise (ValidationError "Video path cannot be empty")
  else
    match path_resolve E video_path with
    | None => raise (ValidationError "Invalid video path format")
    | Some path =>
        if negb (within_shared_media E path) then
          raise (ValidationError
                   "Video path must be within shared_media directory")
        else
          match stat E path with
          | None =>
              raise (ValidationError
                       ("Video file not found: " ++ video_path))
          | Some st =>
              if negb (is_file st) then
                raise (ValidationError
                         ("Path is not a file: " ++ video_path))
              else ret path
          end
    end.
End V.
End VideoPathValidator.

Module UserQueryValidator.
Definition MAX_QUERY_LENGTH : nat := 2000.

Definition validate (query : string) : M string :=
  if Py.blank query then raise (ValidationError "Query cannot be empty")
  else
    let cleaned := Py.strip query in
    if (MAX_QUERY_LENGTH <? String.length cleaned)%nat then
      raise (ValidationError "Query too long (max 2000 characters)")
    else ret cleaned.
End UserQueryValidator.

Module ImageBase64Validator.
Section V.
Variable E : Env.

Definition MAX_SIZE_MB : nat := 10.
Definition MIN_SIZE_BYTES : nat := 100.

Definition validate (image_base64 : string) : M string :=
  if Py.blank image_base64 then
    raise (ValidationError "Image base64 string cannot be empty")
  else
    let cleaned := Py.strip image_base64 in
    let max_size := (MAX_SIZE_MB * 1024 * 1024)%nat in
    if (max_size <? String.length cleaned)%nat then
      raise (ValidationError "Image too large (max 10MB)")
    else
      match b64decode_len E cleaned with
      | None => raise (ValidationError "Invalid base64 format")
      | Some decoded_len =>
          if (decoded_len <? MIN_SIZE_BYTES)%nat then
            raise (ValidationError "Image data too small to be valid")
          else ret cleaned
      end.
End V.
End ImageBase64Validator.

Module VideoNamesValidator.
Definition MAX_VIDEO_COUNT : nat := 20.

Definition validate (video_names : option (list string))
  : M (option (list string)) :=
  match video_names with
  | None => ret None
  | Some [] => ret None
  | Some names =>
      if (MAX_VIDEO_COUNT <? length names)%nat then
        raise (ValidationError "Too many videos specified (max 20)")
      else
        let cleaned :=
          map Py.strip (filter (fun name => negb (Py.blank name)) names) in
        match cleaned with
        | [] => ret None
        | _ :: _ => ret (Some cleaned)
        end
  end.
End VideoNamesValidator.

Module VideoIdValidator.
Definition validate (video_id : string) : M string :=
  if Py.blank video_id then
    raise (ValidationError "Video ID cannot be empty")
  else ret (Py.strip video_id).
End VideoIdValidator.

(* ===================================================================== *)
(** ** tools.py *)
(* ===================================================================== *)

Module Tools.
Section T.
Variable E : Env.

Definition _get_video_processor : M unit :=
  p <- gets _video_processor ;;
  if p then ret tt
  else
    VideoProcessor.__init__ ;;
    modify (fun w =>
      with_singletons true (_clip_extractor w) (_question_answerer w) w).

Definition _get_clip_extractor : M unit :=
  c <- gets _clip_extractor ;;
  if c then ret tt
  else
    VideoClipExtractor.__init__ E ;;
    modify (fun w =>
      with_singletons (_video_processor w) true (_question_answerer w) w).


(** The [try] block of [process_video]. *)
Definition process_video_try (video_path video_id : string) : M bool :=
  validated_path <- VideoPathValidator.validate E video_path ;;
  validated_id <- VideoIdValidator.validate video_id ;;
  _get_video_processor ;;
  VideoProcessor.add_video E validated_path validated_id.

Definition process_video (video_path video_id : string) : M bool :=
  try_except (process_video_try video_path video_id)
    (fun e =>
       match e with
       | ValidationError _ => ret false
       | _ => ret false
       end).

(** The [try] block of [delete_video]. *)
Definition delete_video_try (video_id : string) : M bool :=
  validated_id <- VideoIdValidator.validate video_id ;;
  _get_video_processor ;;
  VideoProcessor.delete_video validated_id.

Definition delete_video (video_id : string) : M bool :=
  try_except (delete_video_try video_id)
    (fun e =>
       match e with
       | ValidationError _ => ret false
       | _ => ret false
       end).

(** The three [except] clauses shared by the clip tools. *)
Definition clip_tool_except (e : exn) : M ToolResult :=
  match e with
  | ValidationError _ =>
      ret {| type := text; content := "Invalid input: " ++ str e |}
  | ClipExtractionError _ =>
      ret {| type := text; content := str e |}
  | _ =>
      ret {| type := text;
             content := "An unexpected error occurred. Please try again or contact support." |}
  end.

Definition get_video_clip_from_user_query_try (user_query : string)
  (video_ids : option (list string)) : M ToolResult :=
  validated_query <- UserQueryValidator.validate user_query ;;
  validated_ids <- VideoNamesValidator.validate video_ids ;;
  _get_clip_extractor ;;
  VideoClipExtractor.extract_from_text_query E validated_query validated_ids.

Definition get_video_clip_from_user_query (user_query : string)
  (video_ids : option (list string)) : M ToolResult :=
  try_except (get_video_clip_from_user_query_try user_query video_ids)
    clip_tool_except.






End T.
End Tools.

(* ===================================================================== *)
(** ** A small installation *)
(* ===================================================================== *)

(** Two videos under the shared media directory: a talk with speech, and a
    silent clip of a beach.  Used to run the code on concrete inputs. *)
Module Demo.

Definition talk_path : string := "/shared_media/videos/talk.mp4".
Definition silent_path : string := "/shared_media/videos/silent.mp4".

Definition mp4_stat : FileStat := {|
  is_file := true; readable := true; st_size := 4096;
  suffix_lower := ".mp4"; av_opens := true; video_streams := 1;
  duration := Some 20000%Z; frames := 600
|}.

(** Similarity of an indexed text to the query "show the chart". *)
Definition chart_similarity (value : string) : Q :=
  if value =? "slides with a chart" then 81 # 100
  else if value =? "let us look at the chart" then 76 # 100
  else if value =? "welcome to the talk" then 20 # 100
  else if value =? "a speaker on a stage" then 10 # 100
  else if value =? "a quiet beach at dawn" then - (5 # 100)
  else 0.

Definition env : Env := {|
  settings := default_settings;
  stat := fun p =>
    if (p =? talk_path) || (p =? silent_path) then Some mp4_stat else None;
  path_stem := fun p =>
    if p =? talk_path then "talk"
    else if p =? silent_path then "silent" else p;
  path_resolve := fun p => Some p;
  within_shared_media := fun p => String.prefix "/shared_media/" p;
  frame_iterator := fun p =>
    if p =? talk_path then
      [(2000%Z, "talk-frame-0", "a speaker on a stage");
       (15000%Z, "talk-frame-1", "slides with a chart")]
    else if p =? silent_path then
      [(3000%Z, "silent-frame-0", "a quiet beach at dawn")]
    else [];
  audio_splitter := fun p =>
    if p =? talk_path then
      [(0, 10, "welcome to the talk"); (8, 18, "let us look at the chart")]
    else [];
  text_similarity := fun value _ => chart_similarity value;
  image_similarity := fun frame query => if frame =? query then 1 else 1 # 10;
  decode_image := fun s => s;
  b64decode_len := fun s => Some (3 * String.length s / 4)%nat;
  resultset_contains := fun _ _ => true;
  uuid4 := fun n => "clip-" ++ String (ascii_of_nat (48 + n mod 10)) ""
|}.

Definition row (id path name : string) (st : VideoStatus) (t : option Z)
  : VideoTable.row :=
  {| VideoTable.video_id := id; VideoTable.video := path;
     VideoTable.video_name := name; VideoTable.status := st;
     VideoTable.processed_at := t |}.

(** A fresh process: empty table, nothing constructed, no fault ahead. *)
Definition empty : World := {|
  video_table := []; clock := 0; faults := [];
  self_video_name := ""; self_video_id := None; self_video_path := "";
  _video_processor := false; _clip_extractor := false;
  _question_answerer := false;
  uuid_count := 0; clips := []
|}.

Definition with_rows (rows : list VideoTable.row) : World :=
  with_video_table (fun _ => rows) empty.

(** Both videos ingested. *)
Definition both : World :=
  with_rows [row "v-talk" talk_path "talk" DONE (Some 0%Z);
             row "v-silent" silent_path "silent" DONE (Some 1%Z)].

(** Only the silent clip ingested: one frame in the index. *)
Definition silent_only : World :=
  with_rows [row "v-silent" silent_path "silent" DONE (Some 0%Z)].

End Demo.

(* ===================================================================== *)
(** ** Vocabulary of the properties *)
(* ===================================================================== *)

(** Descending by score. *)
Definition desc {A} (sims : A -> Q) (a b : A) : Prop :=
  (sims b <= sims a)%Q.

(** where / order_by / limit, as every search method chains them. *)
Definition ranked {R} (video_id : R -> string) (sims : R -> Q)
  (video_ids : option (list string)) (top_k : nat) (rows : list R) : list R :=
  Pxt.limit top_k
    (Pxt.order_by_desc sims
       (VideoSearchEngine.where_video_ids video_id video_ids rows)).

(** What scoping means for one search method [search] whose results carry
    a [video_id], over the index whose rows have the ids [index_ids]:
    - under a non-empty scope every result belongs to the scope;
    - an empty scope is an absent scope;
    - without a scope (and a [top_k] that does not cut) every row of the
      index is a candidate, and the scoped result is the top of that same
      ranking restricted to the scope. *)
Definition respects_scope {T} (video_id : T -> string)
  (default_top_k : nat) (index_ids : World -> list string)
  (search : string -> option nat -> option (list string) -> M (list T))
  : Prop :=
  forall (query : string) (top_k : option nat) (w : World),
    (forall ids rs w',
        ids <> [] -> search query top_k (Some ids) w = (Ok rs, w') ->
        forall r, In r rs -> In (video_id r) ids)
    /\ search query top_k (Some []) w = search query top_k None w
    /\ (forall n full w1,
          (length (index_ids w) <= n)%nat -> n <> 0%nat ->
          search query (Some n) None w = (Ok full, w1) ->
          Permutation (map video_id full) (index_ids w)
          /\ forall ids rs w',
               ids <> [] -> search query top_k (Some ids) w = (Ok rs, w') ->
               rs = firstn (Py.or_default top_k default_top_k)
                      (filter (fun r => Pxt.isin ids (video_id r)) full)).

(** The similarity columns of the three indices. *)
Definition speech_sims (E : Env) (query : string) (r : AudioView.row) : Q :=
  text_similarity E (AudioView.audio_chunk_text r) query.

Definition caption_sims (E : Env) (query : string) (r : FramesView.row) : Q :=
  text_similarity E (FramesView.caption r) query.

Definition image_sims (E : Env) (image_base64 : string) (r : FramesView.row)
  : Q :=
  image_similarity E (FramesView.frame r) (decode_image E image_base64).

(** The video table and the two views derived from it are the same in
    both worlds. *)
Definition same_tables (E : Env) (w w' : World) : Prop :=
  video_table w' = video_table w
  /\ Pxt.frames_view E w' = Pxt.frames_view E w
  /\ Pxt.audio_chunks_view E w' = Pxt.audio_chunks_view E w.

(** The name under which an entry is cited, as a relation: the display
    name of the first row found for its [video_id] when the result set
    answers for its [video_name] column, and "Unknown" otherwise. *)
Definition cited (E : Env) (w : World) (entry : CaptionInfo.t) (name : string)
  : Prop :=
  let rows :=
    filter (fun r => VideoTable.video_id r =? CaptionInfo.video_id entry)
           (video_table w) in
  match rows with
  | r :: _ =>
      if resultset_contains E "video_name" rows
      then name = VideoTable.video_name r
           /\ In r (video_table w)
           /\ VideoTable.video_id r = CaptionInfo.video_id entry
      else name = "Unknown"
  | [] => name = "Unknown"
  end.

(** Both validation steps of [add_video] accept the file. *)
Definition valid_video (E : Env) (video_path : string) : Prop :=
  fst (VideoProcessor._validate_video_file E video_path) = true
  /\ fst (VideoProcessor._validate_video_format E video_path) = true.

(** The world in which the [try] block of [add_video] starts. *)
Definition begin_run (E : Env) (video_path : string) (w : World) : World :=
  with_self_video_name (path_stem E video_path)
    (with_self_video_path video_path w).

(** The claim as the specification words it: some Done record of that
    name suffices. *)
Definition done_record_is_noop (E : Env) (w : World) (video_path video_id : string)
  : Prop :=
  valid_video E video_path ->
  faults w = [] ->
  (exists r, In r (video_table w)
             /\ VideoTable.video_name r = path_stem E video_path
             /\ VideoTable.status r = DONE) ->
  exists w',
    VideoProcessor.add_video E video_path video_id w = (Ok true, w')
    /\ same_tables E w w'.

(** The claim as the specification words it: after such a run no row of
    that [video_id] has a status other than Failed. *)
Definition failed_run_leaves_none_or_failed (E : Env) (w : World)
  (video_path video_id : string) : Prop :=
  forall e w1,
    VideoProcessor.add_video_try video_path video_id
      (begin_run E video_path w) = (Raise e, w1) ->
    self_video_id w1 = Some video_id ->
    (exists r, In r (video_table w1) /\ VideoTable.video_id r = video_id) ->
    exists w',
      VideoProcessor.add_video E video_path video_id w = (Ok false, w')
      /\ forall r, In r (video_table w') ->
                   VideoTable.video_id r = video_id ->
                   VideoTable.status r = FAILED.

(** The record one run of [add_video] writes for a file, with the status
    and the time of the last update it has reached. *)
Definition record_of (E : Env) (video_path video_id : string)
  (st : VideoStatus) (processed_at : option Z) : VideoTable.row :=
  {| VideoTable.video_id := video_id;
     VideoTable.video := video_path;
     VideoTable.video_name := path_stem E video_path;
     VideoTable.status := st;
     VideoTable.processed_at := processed_at |}.

(** What ranking means for one search method [search] whose results carry
    a [similarity], over an index with [in_scope ids w] rows in scope:
    - a [top_k] of 0 is an absent [top_k];
    - the results come in descending order of similarity;
    - there are [top_k] of them (the default when absent), or as many as
      there are rows in scope if these are fewer;
    - the search writes neither to the video table nor a clip. *)
Definition ranks_descending {T} (similarity : T -> Q) (default_top_k : nat)
  (in_scope : option (list string) -> World -> nat)
  (search : string -> option nat -> option (list string) -> M (list T))
  : Prop :=
  forall (query : string) (top_k : option nat)
         (video_ids : option (list string)) (w : World),
    search query (Some 0%nat) video_ids w = search query None video_ids w
    /\ video_table (snd (search query top_k video_ids w)) = video_table w
    /\ clips (snd (search query top_k video_ids w)) = clips w
    /\ forall rs w',
         search query top_k video_ids w = (Ok rs, w') ->
         StronglySorted (fun a b => (similarity b <= similarity a)%Q) rs
         /\ length rs
            = Nat.min (Py.or_default top_k default_top_k)
                (in_scope video_ids w).

(** A small Hoare logic for [M]: [keeps I m Q] says that [m], started in
    a world satisfying [I], ends (normally or by raising) in a world
    satisfying [I], and that a value it returns satisfies [Q]. *)
Definition keeps (I : World -> Prop) {A} (m : M A) (Q : A -> Prop) : Prop :=
  forall w, I w -> I (snd (m w)) /\ forall a, fst (m w) = Ok a -> Q a.

(** [r'] is [r] itself, or [r] with its status set to Done or Failed. *)
Definition evolves (r r' : VideoTable.row) : Prop :=
  r' = r
  \/ (VideoTable.video_id r' = VideoTable.video_id r
      /\ VideoTable.video r' = VideoTable.video r
      /\ VideoTable.video_name r' = VideoTable.video_name r
      /\ (VideoTable.status r' = DONE \/ VideoTable.status r' = FAILED)).

(** Every row of [rows] stems from a row of [before] or from [new]. *)
Definition descends (before : list VideoTable.row) (new : VideoTable.row)
  (rows : list VideoTable.row) : Prop :=
  forall r', In r' rows ->
    exists r, (In r before \/ r = new) /\ evolves r r'.

(** The invariant of one run of [add_video]. *)
Definition run_invariant (E : Env) (before : list VideoTable.row)
  (video_path video_id : string) (w : World) : Prop :=
  self_video_name w = path_stem E video_path
  /\ descends before
       {| VideoTable.video_id := video_id;
          VideoTable.video := video_path;
          VideoTable.video_name := path_stem E video_path;
          VideoTable.status := PROCESSING;
          VideoTable.processed_at := None |}
       (video_table w).

(** A video table with two records of one display name, the first Failed
    and the second Done, as two runs leave it when the first could not mark
    its record Done nor purge it, and the second could not purge the record
    of the first. *)
Module TwoRecords.

Definition first_run : World :=
  snd (VideoProcessor.add_video Demo.env Demo.talk_path "v-1"
         (with_faults
            [None; None; None; None;
             Some (Exception "update failed");
             Some (Exception "delete failed"); None]
            Demo.empty)).

Definition second_run : World :=
  snd (VideoProcessor.add_video Demo.env Demo.talk_path "v-2"
         (with_faults
            [None; None; None; Some (Exception "delete failed"); None; None]
            first_run)).

End TwoRecords.

(** A first ingestion during which the store stops answering once the
    record is written: the update to Done, the purge and the update to
    Failed all raise. *)
Module StoreGoesAway.

Definition start : World :=
  with_faults
    [None; None; None; None;
     Some (Exception "connection lost");
     Some (Exception "connection lost");
     Some (Exception "connection lost")]
    Demo.empty.

(** The world when the update to Done raises: the record is written. *)
Definition at_raise : World := {|
  video_table := [Demo.row "v-1" Demo.talk_path "talk" PROCESSING None];
  clock := 1;
  faults := [Some (Exception "connection lost");
             Some (Exception "connection lost")];
  self_video_name := "talk"; self_video_id := Some "v-1";
  self_video_path := Demo.talk_path;
  _video_processor := false; _clip_extractor := false;
  _question_answerer := false;
  uuid_count := 0; clips := []
|}.

(** The world when [add_video] returns. *)
Definition finish : World := {|
  video_table := [Demo.row "v-1" Demo.talk_path "talk" PROCESSING None];
  clock := 2;
  faults := [];
  self_video_name := "talk"; self_video_id := Some "v-1";
  self_video_path := Demo.talk_path;
  _video_processor := false; _clip_extractor := false;
  _question_answerer := false;
  uuid_count := 0; clips := []
|}.

End StoreGoesAway.

(** The [VideoProcessor] of tools.py is one object for the life of the
    process, and [self.video_id] is assigned only at step 7 of [add_video].
    A run that raises before step 7 therefore purges and marks the record
    of the run before it. *)
Module StaleVideoId.

(** After a first, successful [process_video] of the talk. *)
Definition after_first : World := {|
  video_table := [Demo.row "v-talk" Demo.talk_path "talk" DONE (Some 0%Z)];
  clock := 1; faults := [];
  self_video_name := "talk"; self_video_id := Some "v-talk";
  self_video_path := Demo.talk_path;
  _video_processor := true; _clip_extractor := false;
  _question_answerer := false;
  uuid_count := 0; clips := []
|}.

(** The second ingestion: its first lookup raises, the purge raises, the
    update to Failed goes through. *)
Definition second_faults : list (option exn) :=
  [None; Some (Exception "lookup failed");
   Some (Exception "delete failed"); None].

Definition after_second : World := {|
  video_table := [Demo.row "v-talk" Demo.talk_path "talk" FAILED (Some 1%Z)];
  clock := 2; faults := [];
  self_video_name := "silent"; self_video_id := Some "v-talk";
  self_video_path := Demo.silent_path;
  _video_processor := true; _clip_extractor := false;
  _question_answerer := false;
  uuid_count := 0; clips := []
|}.

(** The same, when the purge goes through: the record of the talk is
    gone. *)
Definition after_second_purged : World := {|
  video_table := [];
  clock := 2; faults := [];
  self_video_name := "silent"; self_video_id := Some "v-talk";
  self_video_path := Demo.silent_path;
  _video_processor := true; _clip_extractor := false;
  _question_answerer := false;
  uuid_count := 0; clips := []
|}.

End StaleVideoId.

(* ===================================================================== *)
(** * Properties *)
(* ===================================================================== *)

(** ** Ranking: [order_by_desc] is a stable descending sort *)

Section Ranking.
Context {A : Type} (sims : A -> Q).

Lemma insert_desc_In x y l :
  In y (Pxt.insert_desc sims x l) <-> y = x \/ In y l.
Proof.
  induction l as [|z l IH]; simpl.
  - intuition.
  - destruct (Qle_bool (sims z) (sims x)); simpl.
    + intuition.
    + rewrite IH. intuition.
Qed.

Lemma order_by_desc_In y l : In y (Pxt.order_by_desc sims l) <-> In y l.
Proof.
  induction l as [|x l IH]; simpl.
  - reflexivity.
  - rewrite insert_desc_In, IH. intuition.
Qed.

Lemma insert_desc_length x l :
  length (Pxt.insert_desc sims x l) = S (length l).
Proof.
  induction l as [|z l IH]; simpl; auto.
  destruct (Qle_bool (sims z) (sims x)); simpl; auto.
Qed.

Lemma order_by_desc_length l :
  length (Pxt.order_by_desc sims l) = length l.
Proof.
  induction l as [|x l IH]; simpl; auto.
  now rewrite insert_desc_length, IH.
Qed.

Lemma insert_desc_sorted x l :
  StronglySorted (desc sims) l -> StronglySorted (desc sims) (Pxt.insert_desc sims x l).
Proof.
  induction 1 as [|z l Hs IH Hz]; simpl.
  - constructor; constructor.
  - destruct (Qle_bool (sims z) (sims x)) eqn:Hc.
    + apply Qle_bool_iff in Hc.
      constructor. { now constructor. }
      constructor; [exact Hc|].
      rewrite Forall_forall in Hz |- *. intros b Hb.
      unfold desc in *. eapply Qle_trans; [apply Hz, Hb | exact Hc].
    + constructor; [exact IH|].
      rewrite Forall_forall in Hz |- *. intros b Hb.
      apply insert_desc_In in Hb. destruct Hb as [->|Hb].
      * unfold desc. apply Qlt_le_weak, Qnot_le_lt.
        intro Hle. apply Qle_bool_iff in Hle. congruence.
      * now apply Hz.
Qed.

Lemma order_by_desc_sorted l :
  StronglySorted (desc sims) (Pxt.order_by_desc sims l).
Proof.
  induction l as [|x l IH]; simpl.
  - constructor.
  - now apply insert_desc_sorted.
Qed.

(** Filtering a ranked list and ranking a filtered list agree: the rows
    that pass keep their relative order. *)
Lemma filter_insert_desc (p : A -> bool) x l :
  StronglySorted (desc sims) l ->
  filter p (Pxt.insert_desc sims x l) =
  if p x then Pxt.insert_desc sims x (filter p l) else filter p l.
Proof.
  induction 1 as [|z l Hs IH Hz]; simpl.
  - destruct (p x); reflexivity.
  - destruct (Qle_bool (sims z) (sims x)) eqn:Hc; simpl.
    + destruct (p x) eqn:Hx, (p z) eqn:Hpz; simpl; rewrite ?Hc; try reflexivity.
      (* z is dropped: x goes in front of whatever follows *)
      destruct (filter p l) as [|y l'] eqn:Hf; simpl; [reflexivity|].
      assert (Hy : In y l).
      { assert (In y (filter p l)) by (rewrite Hf; now left).
        now apply filter_In in H. }
      rewrite Forall_forall in Hz. specialize (Hz y Hy). unfold desc in Hz.
      apply Qle_bool_iff in Hc.
      assert (Hyx : Qle_bool (sims y) (sims x) = true).
      { apply Qle_bool_iff. eapply Qle_trans; eauto. }
      now rewrite Hyx.
    + rewrite IH.
      destruct (p x), (p z); simpl; rewrite ?Hc; reflexivity.
Qed.

Lemma filter_order_by_desc (p : A -> bool) l :
  filter p (Pxt.order_by_desc sims l) = Pxt.order_by_desc sims (filter p l).
Proof.
  induction l as [|x l IH]; simpl; [reflexivity|].
  rewrite filter_insert_desc by apply order_by_desc_sorted.
  destruct (p x); simpl; now rewrite IH.
Qed.

End Ranking.

Lemma firstn_incl {A} n (l : list A) x : In x (firstn n l) -> In x l.
Proof.
  revert l; induction n as [|n IH]; intros [|y l]; simpl; try tauto.
  intros [->|H]; auto.
Qed.

Lemma firstn_sorted {A} (R : A -> A -> Prop) n l :
  StronglySorted R l -> StronglySorted R (firstn n l).
Proof.
  intros H; revert n; induction H as [|x l Hs IH Hx]; intros [|n]; simpl;
    try constructor; auto.
  rewrite Forall_forall in Hx |- *. intros y Hy. apply Hx.
  eapply firstn_incl; eauto.
Qed.

Lemma isin_In ids v : Pxt.isin ids v = true <-> In v ids.
Proof.
  unfold Pxt.isin. rewrite existsb_exists. split.
  - intros [x [Hx He]]. apply String.eqb_eq in He. now subst.
  - intros H. exists v. split; auto. apply String.eqb_refl.
Qed.

(** ** The monad: external calls and what they leave untouched *)

Lemma external_cases w :
  (exists e fs, faults w = Some e :: fs /\
                external w = (Raise e, with_faults fs w)) \/
  (exists fs, external w = (Ok tt, with_faults fs w) /\
              (faults w = [] \/ faults w = None :: fs) /\
              (faults w = [] -> fs = [])).
Proof.
  unfold external. destruct w as [vt c fs n i p vp ce qa u cl]; simpl.
  destruct fs as [|[e|] fs]; simpl.
  - right. exists []. auto.
  - left. eauto.
  - right. exists fs. repeat split; auto. discriminate.
Qed.

Lemma external_no_faults w : faults w = [] -> external w = (Ok tt, w).
Proof. unfold external. now intros ->. Qed.

Lemma frames_view_ext E w w' :
  video_table w' = video_table w -> Pxt.frames_view E w' = Pxt.frames_view E w.
Proof. unfold Pxt.frames_view. now intros ->. Qed.


Lemma external_video_table w :
  video_table (snd (external w)) = video_table w.
Proof.
  destruct (external_cases w) as [(e & fs & _ & ->)|(fs & -> & _)]; reflexivity.
Qed.

Lemma external_clips w : clips (snd (external w)) = clips w.
Proof.
  destruct (external_cases w) as [(e & fs & _ & ->)|(fs & -> & _)]; reflexivity.
Qed.

Lemma external_faults_nil w :
  faults w = [] -> faults (snd (external w)) = [].
Proof. intros H. now rewrite external_no_faults. Qed.

(** ** The query pipeline of the five searches *)

Section RankedRows.
Context {R : Type} (video_id : R -> string) (sims : R -> Q).


Lemma ranked_incl video_ids top_k rows r :
  In r (ranked video_id sims video_ids top_k rows) -> In r rows.
Proof.
  unfold ranked, Pxt.limit. intros H. apply firstn_incl in H.
  apply order_by_desc_In in H.
  destruct video_ids as [[|i ids]|]; simpl in H; auto.
  now apply filter_In in H.
Qed.

Lemma ranked_in_scope ids top_k rows r :
  ids <> [] -> In r (ranked video_id sims (Some ids) top_k rows) ->
  In (video_id r) ids.
Proof.
  unfold ranked, Pxt.limit. intros Hne H. apply firstn_incl in H.
  apply order_by_desc_In in H.
  destruct ids as [|i ids]; [congruence|].
  unfold VideoSearchEngine.where_video_ids in H.
  apply filter_In in H. destruct H as [_ H]. apply isin_In in H. exact H.
Qed.

Lemma ranked_empty_scope top_k rows :
  ranked video_id sims (Some []) top_k rows
  = ranked video_id sims None top_k rows.
Proof. reflexivity. Qed.

Lemma ranked_all n rows :
  (length rows <= n)%nat ->
  ranked video_id sims None n rows = Pxt.order_by_desc sims rows.
Proof.
  intros H. unfold ranked, Pxt.limit. simpl.
  apply firstn_all2. now rewrite order_by_desc_length.
Qed.

Lemma ranked_restricts ids top_k rows :
  ids <> [] ->
  ranked video_id sims (Some ids) top_k rows =
  firstn top_k (filter (fun r => Pxt.isin ids (video_id r))
                       (Pxt.order_by_desc sims rows)).
Proof.
  intros Hne. unfold ranked, Pxt.limit.
  destruct ids as [|i ids]; [congruence|]. simpl.
  now rewrite filter_order_by_desc.
Qed.

Lemma ranked_sorted video_ids top_k rows :
  StronglySorted (desc sims) (ranked video_id sims video_ids top_k rows).
Proof. apply firstn_sorted, order_by_desc_sorted. Qed.

End RankedRows.

Lemma insert_desc_perm {A} (sims : A -> Q) x l :
  Permutation (Pxt.insert_desc sims x l) (x :: l).
Proof.
  induction l as [|y l IH]; simpl; auto.
  destruct (Qle_bool (sims y) (sims x)); auto.
  eapply perm_trans; [apply perm_skip, IH | apply perm_swap].
Qed.

Lemma order_by_desc_perm {A} (sims : A -> Q) l :
  Permutation (Pxt.order_by_desc sims l) l.
Proof.
  induction l as [|x l IH]; simpl; auto.
  eapply perm_trans; [apply insert_desc_perm | now apply perm_skip].
Qed.

Lemma filter_map_proj {R T} (proj : R -> T) (p : R -> bool) (p' : T -> bool) l :
  (forall r, p' (proj r) = p r) ->
  filter p' (map proj l) = map proj (filter p l).
Proof.
  intros H. induction l as [|x l IH]; simpl; auto.
  rewrite H. destruct (p x); simpl; now rewrite IH.
Qed.

(** What each search method returns, in terms of [ranked]. *)
Section SearchRuns.
Variable E : Env.


Lemma search_by_speech_run query top_k video_ids w :
  VideoSearchEngine.search_by_speech E query top_k video_ids w =
  match external w with
  | (Ok _, w') =>
      (Ok (map (VideoSearchEngine.speech_clip (speech_sims E query))
             (ranked AudioView.video_id (speech_sims E query) video_ids
                (Py.or_default top_k
                   (SPEECH_SIMILARITY_SEARCH_TOP_K (settings E)))
                (Pxt.audio_chunks_view E w))), w')
  | (Raise e, w') => (Raise e, w')
  end.
Proof.
  unfold VideoSearchEngine.search_by_speech, Pxt.collect, bind, gets, ret.
  destruct (external w) as [[[]|e] w']; reflexivity.
Qed.

Lemma get_speech_info_run query top_k video_ids w :
  VideoSearchEngine.get_speech_info E query top_k video_ids w =
  match external w with
  | (Ok _, w') =>
      (Ok (map (VideoSearchEngine.speech_info (speech_sims E query))
             (ranked AudioView.video_id (speech_sims E query) video_ids
                (Py.or_default top_k
                   (SPEECH_SIMILARITY_SEARCH_TOP_K (settings E)))
                (Pxt.audio_chunks_view E w))), w')
  | (Raise e, w') => (Raise e, w')
  end.
Proof.
  unfold VideoSearchEngine.get_speech_info, Pxt.collect, bind, gets, ret.
  destruct (external w) as [[[]|e] w']; reflexivity.
Qed.

Lemma search_by_caption_run query top_k video_ids w :
  VideoSearchEngine.search_by_caption E query top_k video_ids w =
  match external w with
  | (Ok _, w') =>
      (Ok (map (VideoSearchEngine.frame_clip E (caption_sims E query))
             (ranked FramesView.video_id (caption_sims E query) video_ids
                (Py.or_default top_k
                   (CAPTION_SIMILARITY_SEARCH_TOP_K (settings E)))
                (Pxt.frames_view E w))), w')
  | (Raise e, w') => (Raise e, w')
  end.
Proof.
  unfold VideoSearchEngine.search_by_caption, Pxt.collect, bind, gets, ret.
  destruct (external w) as [[[]|e] w']; reflexivity.
Qed.

Lemma get_caption_info_run query top_k video_ids w :
  VideoSearchEngine.get_caption_info E query top_k video_ids w =
  match external w with
  | (Ok _, w') =>
      (Ok (map (VideoSearchEngine.caption_info (caption_sims E query))
             (ranked FramesView.video_id (caption_sims E query) video_ids
                (Py.or_default top_k
                   (CAPTION_SIMILARITY_SEARCH_TOP_K (settings E)))
                (Pxt.frames_view E w))), w')
  | (Raise e, w') => (Raise e, w')
  end.
Proof.
  unfold VideoSearchEngine.get_caption_info, Pxt.collect, bind, gets, ret.
  destruct (external w) as [[[]|e] w']; reflexivity.
Qed.

Lemma search_by_image_run image_base64 top_k video_ids w :
  VideoSearchEngine.search_by_image E image_base64 top_k video_ids w =
  match external w with
  | (Ok _, w1) =>
      match external w1 with
      | (Ok _, w') =>
          (Ok (map (VideoSearchEngine.frame_clip E (image_sims E image_base64))
                 (ranked FramesView.video_id (image_sims E image_base64)
                    video_ids
                    (Py.or_default top_k
                       (IMAGE_SIMILARITY_SEARCH_TOP_K (settings E)))
                    (Pxt.frames_view E w))), w')
      | (Raise e, w') => (Raise e, w')
      end
  | (Raise e, w1) => (Raise e, w1)
  end.
Proof.
  unfold VideoSearchEngine.search_by_image, Pxt.collect, bind, gets, ret.
  pose proof (external_video_table w) as Hvt.
  destruct (external w) as [[[]|e] w1]; [|reflexivity]. simpl in Hvt.
  rewrite (frames_view_ext E w w1 Hvt).
  destruct (external w1) as [[[]|e] w']; reflexivity.
Qed.

End SearchRuns.

(** ** Scoping by [video_ids] *)


Lemma respects_scope_intro {R T} (vid : R -> string) (vid' : T -> string)
  (proj : (R -> Q) -> R -> T) (sims : string -> R -> Q) (d : nat)
  (view : World -> list R)
  (search : string -> option nat -> option (list string) -> M (list T)) :
  (forall s r, vid' (proj s r) = vid r) ->
  (forall q k ids w rs w',
      search q k ids w = (Ok rs, w') ->
      rs = map (proj (sims q))
             (ranked vid (sims q) ids (Py.or_default k d) (view w))) ->
  (forall q k w, search q k (Some []) w = search q k None w) ->
  respects_scope vid' d (fun w => map vid (view w)) search.
Proof.
  intros Hvid Hrun Hnil query top_k w. split; [|split].
  - intros ids rs w' Hne Hs r Hr.
    apply Hrun in Hs. subst rs. apply in_map_iff in Hr.
    destruct Hr as (x & <- & Hx). rewrite Hvid.
    eapply ranked_in_scope; eauto.
  - apply Hnil.
  - intros n full w1 Hlen Hn Hfull. apply Hrun in Hfull.
    assert (Hk : Py.or_default (Some n) d = n) by (destruct n; [congruence|reflexivity]).
    rewrite Hk, ranked_all in Hfull by (now rewrite length_map in Hlen).
    subst full. split.
    + rewrite map_map.
      rewrite (map_ext _ vid) by (intros; apply Hvid).
      apply Permutation_map, order_by_desc_perm.
    + intros ids rs w' Hne Hs. apply Hrun in Hs. subst rs.
      rewrite ranked_restricts by assumption.
      rewrite <- firstn_map. f_equal. symmetry.
      apply filter_map_proj. intros r. now rewrite Hvid.
Qed.

Section Scoping.
Variable E : Env.

Ltac from_run H lem :=
  rewrite lem in H;
  repeat match type of H with
         | context [external ?w] => destruct (external w) as [[[]|?] ?]
         end;
  inversion H; subst; reflexivity.

(** C4.  Each of the five searches (speech, image, caption, speech-info,
    caption-info) respects the scope: with a non-empty [video_ids] every
    result has a [video_id] of that set; an empty or absent [video_ids]
    ranks the whole index; and the scoped result is the top of the
    unscoped ranking restricted to the scope. *)
Theorem search_respects_scope :
  respects_scope SearchResult.video_id
    (SPEECH_SIMILARITY_SEARCH_TOP_K (settings E))
    (fun w => map AudioView.video_id (Pxt.audio_chunks_view E w))
    (VideoSearchEngine.search_by_speech E)
  /\ respects_scope SearchResult.video_id
    (CAPTION_SIMILARITY_SEARCH_TOP_K (settings E))
    (fun w => map FramesView.video_id (Pxt.frames_view E w))
    (VideoSearchEngine.search_by_caption E)
  /\ respects_scope SearchResult.video_id
    (IMAGE_SIMILARITY_SEARCH_TOP_K (settings E))
    (fun w => map FramesView.video_id (Pxt.frames_view E w))
    (VideoSearchEngine.search_by_image E)
  /\ respects_scope SpeechInfo.video_id
    (SPEECH_SIMILARITY_SEARCH_TOP_K (settings E))
    (fun w => map AudioView.video_id (Pxt.audio_chunks_view E w))
    (VideoSearchEngine.get_speech_info E)
  /\ respects_scope CaptionInfo.video_id
    (CAPTION_SIMILARITY_SEARCH_TOP_K (settings E))
    (fun w => map FramesView.video_id (Pxt.frames_view E w))
    (VideoSearchEngine.get_caption_info E).
Proof.
  split; [|split; [|split; [|split]]].
  - apply (respects_scope_intro AudioView.video_id SearchResult.video_id
             VideoSearchEngine.speech_clip (speech_sims E)).
    + reflexivity.
    + intros q k ids w rs w' H. from_run H search_by_speech_run.
    + intros. now rewrite !search_by_speech_run.
  - apply (respects_scope_intro FramesView.video_id SearchResult.video_id
             (VideoSearchEngine.frame_clip E) (caption_sims E)).
    + reflexivity.
    + intros q k ids w rs w' H. from_run H search_by_caption_run.
    + intros. now rewrite !search_by_caption_run.
  - apply (respects_scope_intro FramesView.video_id SearchResult.video_id
             (VideoSearchEngine.frame_clip E) (image_sims E)).
    + reflexivity.
    + intros q k ids w rs w' H. from_run H search_by_image_run.
    + intros. now rewrite !search_by_image_run.
  - apply (respects_scope_intro AudioView.video_id SpeechInfo.video_id
             VideoSearchEngine.speech_info (speech_sims E)).
    + reflexivity.
    + intros q k ids w rs w' H. from_run H get_speech_info_run.
    + intros. now rewrite !get_speech_info_run.
  - apply (respects_scope_intro FramesView.video_id CaptionInfo.video_id
             VideoSearchEngine.caption_info (caption_sims E)).
    + reflexivity.
    + intros q k ids w rs w' H. from_run H get_caption_info_run.
    + intros. now rewrite !get_caption_info_run.
Qed.

End Scoping.

(** ** Clip windows of frame-based results *)

Section FrameWindows.
Variable E : Env.

Local Notation "'delta'" := (DELTA_SECONDS_FRAME_INTERVAL (settings E)).

(** The window [frame_clip] builds around a frame. *)
Lemma frame_clip_window sims entry :
  let r := VideoSearchEngine.frame_clip E sims entry in
  SearchResult.video_id r = FramesView.video_id entry
  /\ SearchResult.start_time r
     = inject_Z (FramesView.pos_msec entry) / 1000 - delta
  /\ SearchResult.end_time r
     = inject_Z (FramesView.pos_msec entry) / 1000 + delta.
Proof. repeat split. Qed.

Lemma search_by_image_from_frame image_base64 top_k video_ids w rs w' :
  VideoSearchEngine.search_by_image E image_base64 top_k video_ids w
    = (Ok rs, w') ->
  forall r, In r rs ->
    exists entry, In entry (Pxt.frames_view E w)
      /\ r = VideoSearchEngine.frame_clip E (image_sims E image_base64) entry.
Proof.
  intros H r Hr. rewrite search_by_image_run in H.
  destruct (external w) as [[[]|?] w1]; [|discriminate].
  destruct (external w1) as [[[]|?] w2]; [|discriminate].
  inversion H; subst. apply in_map_iff in Hr.
  destruct Hr as (entry & <- & Hin). exists entry. split; auto.
  eapply ranked_incl; eauto.
Qed.

Lemma search_by_caption_from_frame query top_k video_ids w rs w' :
  VideoSearchEngine.search_by_caption E query top_k video_ids w
    = (Ok rs, w') ->
  forall r, In r rs ->
    exists entry, In entry (Pxt.frames_view E w)
      /\ r = VideoSearchEngine.frame_clip E (caption_sims E query) entry.
Proof.
  intros H r Hr. rewrite search_by_caption_run in H.
  destruct (external w) as [[[]|?] w1]; [|discriminate].
  inversion H; subst. apply in_map_iff in Hr.
  destruct Hr as (entry & <- & Hin). exists entry. split; auto.
  eapply ranked_incl; eauto.
Qed.

(** Runs without faults. *)
Lemma search_by_image_ok image_base64 top_k video_ids w :
  faults w = [] ->
  VideoSearchEngine.search_by_image E image_base64 top_k video_ids w =
  (Ok (map (VideoSearchEngine.frame_clip E (image_sims E image_base64))
         (ranked FramesView.video_id (image_sims E image_base64) video_ids
            (Py.or_default top_k (IMAGE_SIMILARITY_SEARCH_TOP_K (settings E)))
            (Pxt.frames_view E w))), w).
Proof.
  intros Hf. rewrite search_by_image_run.
  now rewrite !(external_no_faults w Hf).
Qed.

Lemma _get_video_path_ok video_id w r rest :
  faults w = [] ->
  filter (fun r => VideoTable.video_id r =? video_id) (video_table w)
    = r :: rest ->
  VideoTable.video r <> "" ->
  VideoClipExtractor._get_video_path video_id w = (Ok (VideoTable.video r), w).
Proof.
  intros Hf Hrows Hv.
  unfold VideoClipExtractor._get_video_path, Pxt.collect, bind, gets, ret.
  rewrite (external_no_faults w Hf), Hrows.
  apply String.eqb_neq in Hv. now rewrite Hv.
Qed.

Lemma _extract_clip_ok video_path start_time end_time w :
  faults w = [] ->
  let destination :=
    "videos/ai_responses/" ++ uuid4 E (uuid_count w) ++ ".mp4" in
  VideoClipExtractor._extract_clip E video_path start_time end_time w =
  (Ok destination,
   with_clips (S (uuid_count w))
     ({| clip_video_path := video_path;
         clip_start_time := start_time;
         clip_end_time := end_time;
         clip_output_path := destination |} :: clips w) w).
Proof.
  intros Hf.
  unfold VideoClipExtractor._extract_clip, bind, gets, modify, try_except, ret.
  rewrite external_no_faults by exact Hf. reflexivity.
Qed.

(** A frame of the view belongs to a row of the video table. *)
Lemma frames_view_row w entry :
  In entry (Pxt.frames_view E w) ->
  exists v, In v (video_table w)
    /\ VideoTable.video_id v = FramesView.video_id entry.
Proof.
  unfold Pxt.frames_view. intros H. apply in_flat_map in H.
  destruct H as (v & Hv & Hin). exists v. split; auto.
  unfold Pxt.frames_of in Hin. apply in_map_iff in Hin.
  destruct Hin as ([[pos img] cap] & <- & _). reflexivity.
Qed.

Lemma filter_nonempty {A} (p : A -> bool) l x :
  In x l -> p x = true ->
  exists y rest, filter p l = y :: rest /\ In y l /\ p y = true.
Proof.
  intros Hin Hp.
  assert (Hf : In x (filter p l)) by (apply filter_In; auto).
  destruct (filter p l) as [|y rest] eqn:Heq; [contradiction|].
  exists y, rest. split; auto.
  assert (Hy : In y (filter p l)) by (rewrite Heq; now left).
  now apply filter_In in Hy.
Qed.

(** C9.  Every result of the image search is built from a frame of the
    index and its window is exactly [pos_msec/1000 - delta,
    pos_msec/1000 + delta]; and when the index holds one frame, which the
    query may reach, the clip cut by [extract_from_image] has exactly that
    window. *)
Theorem image_query_window image_base64 video_ids w :
  (forall top_k rs w',
      VideoSearchEngine.search_by_image E image_base64 top_k video_ids w
        = (Ok rs, w') ->
      forall r, In r rs ->
        exists entry, In entry (Pxt.frames_view E w)
          /\ SearchResult.video_id r = FramesView.video_id entry
          /\ SearchResult.start_time r
             = inject_Z (FramesView.pos_msec entry) / 1000 - delta
          /\ SearchResult.end_time r
             = inject_Z (FramesView.pos_msec entry) / 1000 + delta)
  /\ (forall entry,
        Pxt.frames_view E w = [entry] ->
        (forall ids, video_ids = Some ids -> ids <> [] ->
                     In (FramesView.video_id entry) ids) ->
        faults w = [] ->
        (0 < Py.or_default (Some (VIDEO_CLIP_IMAGE_SEARCH_TOP_K (settings E)))
               (IMAGE_SIMILARITY_SEARCH_TOP_K (settings E)))%nat ->
        (forall v, In v (video_table w) -> VideoTable.video v <> "") ->
        exists v out w',
          In v (video_table w)
          /\ VideoTable.video_id v = FramesView.video_id entry
          /\ VideoClipExtractor.extract_from_image E image_base64 video_ids w
             = (Ok {| type := video_t; content := out |}, w')
          /\ clips w' =
             {| clip_video_path := VideoTable.video v;
                clip_start_time :=
                  inject_Z (FramesView.pos_msec entry) / 1000 - delta;
                clip_end_time :=
                  inject_Z (FramesView.pos_msec entry) / 1000 + delta;
                clip_output_path := out |} :: clips w).
Proof.
  split.
  - intros top_k rs w' H r Hr.
    destruct (search_by_image_from_frame _ _ _ _ _ _ H r Hr)
      as (entry & Hin & ->).
    exists entry. split; [exact Hin|]. apply frame_clip_window.
  - intros entry Hview Hscope Hf Hk Hpaths.
    assert (Hin : In entry (Pxt.frames_view E w)) by (rewrite Hview; now left).
    destruct (frames_view_row w entry Hin) as (v0 & Hv0 & Hid0).
    destruct (filter_nonempty
                (fun r => VideoTable.video_id r =? FramesView.video_id entry)
                (video_table w) v0 Hv0) as (v & rest & Hfil & Hv & Hid).
    { rewrite Hid0. apply String.eqb_refl. }
    apply String.eqb_eq in Hid.
    unfold VideoClipExtractor.extract_from_image, try_except, bind.
    rewrite search_by_image_ok by exact Hf. rewrite Hview.
    assert (Hr : ranked FramesView.video_id (image_sims E image_base64)
                   video_ids
                   (Py.or_default
                      (Some (VIDEO_CLIP_IMAGE_SEARCH_TOP_K (settings E)))
                      (IMAGE_SIMILARITY_SEARCH_TOP_K (settings E)))
                   [entry] = [entry]).
    { unfold ranked, Pxt.limit.
      assert (Hw : VideoSearchEngine.where_video_ids FramesView.video_id
                     video_ids [entry] = [entry]).
      { destruct video_ids as [[|i ids]|]; try reflexivity.
        unfold VideoSearchEngine.where_video_ids. cbn [filter].
        assert (Hi : Pxt.isin (i :: ids) (FramesView.video_id entry) = true).
        { apply isin_In. apply Hscope with (ids := i :: ids);
            [reflexivity | discriminate]. }
        now rewrite Hi. }
      rewrite Hw. simpl Pxt.order_by_desc.
      destruct (Py.or_default _ _); [lia | now destruct n]. }
    rewrite Hr.
    cbn [map VideoSearchEngine.frame_clip SearchResult.video_id
         SearchResult.start_time SearchResult.end_time].
    rewrite (_get_video_path_ok _ w v rest Hf Hfil (Hpaths v Hv)).
    rewrite _extract_clip_ok by exact Hf.
    eexists v, _, _. repeat split; auto.
Qed.

(** The window of a frame-based result, and what follows from it. *)
Lemma frame_results_window query top_k video_ids w rs w' :
  VideoSearchEngine.search_by_image E query top_k video_ids w = (Ok rs, w')
  \/ VideoSearchEngine.search_by_caption E query top_k video_ids w
     = (Ok rs, w') ->
  forall r, In r rs ->
    exists entry, In entry (Pxt.frames_view E w)
      /\ SearchResult.video_id r = FramesView.video_id entry
      /\ SearchResult.start_time r
         == inject_Z (FramesView.pos_msec entry) / 1000 - delta
      /\ SearchResult.end_time r
         == inject_Z (FramesView.pos_msec entry) / 1000 + delta
      /\ (inject_Z (FramesView.pos_msec entry) / 1000 < delta ->
          SearchResult.start_time r < 0)
      /\ (forall video_duration : Q,
             video_duration
               < inject_Z (FramesView.pos_msec entry) / 1000 + delta ->
             video_duration < SearchResult.end_time r).
Proof.
  intros H r Hr.
  assert (Hex : exists sims entry, In entry (Pxt.frames_view E w)
                  /\ r = VideoSearchEngine.frame_clip E sims entry).
  { destruct H as [H|H].
    - destruct (search_by_image_from_frame _ _ _ _ _ _ H r Hr)
        as (entry & Hin & ->). eauto.
    - destruct (search_by_caption_from_frame _ _ _ _ _ _ H r Hr)
        as (entry & Hin & ->). eauto. }
  destruct Hex as (sims & entry & Hin & ->).
  exists entry. simpl. repeat split; try reflexivity; auto.
  intros Hlt. lra.
Qed.

End FrameWindows.

(** ** What the extractor is handed *)

Section HandOff.
Variable E : Env.

Local Notation "'delta'" := (DELTA_SECONDS_FRAME_INTERVAL (settings E)).

Ltac ext_step w :=
  let e := fresh "e" in
  let fs := fresh "fs" in
  let Hx := fresh "Hx" in
  destruct (external_cases w) as [(e & fs & _ & Hx)|(fs & Hx & _)];
  rewrite Hx; clear Hx.

Lemma _get_video_path_clips video_id w res w' :
  VideoClipExtractor._get_video_path video_id w = (res, w') ->
  clips w' = clips w.
Proof.
  unfold VideoClipExtractor._get_video_path, Pxt.collect, bind, gets, ret, raise.
  ext_step w.
  - intros H; inversion H; reflexivity.
  - destruct (filter _ _) as [|r ?];
      [|destruct (VideoTable.video r =? "")];
      intros H; inversion H; reflexivity.
Qed.

Lemma _extract_clip_clips video_path start_time end_time w res w' :
  VideoClipExtractor._extract_clip E video_path start_time end_time w
    = (res, w') ->
  clips w' = clips w
  \/ exists out,
       res = Ok out
       /\ clips w' = {| clip_video_path := video_path;
                        clip_start_time := start_time;
                        clip_end_time := end_time;
                        clip_output_path := out |} :: clips w.
Proof.
  unfold VideoClipExtractor._extract_clip, bind, gets, modify, try_except,
    ret, raise.
  ext_step (with_clips (S (uuid_count w)) (clips w) w).
  - destruct e; intros H; inversion H; left; reflexivity.
  - intros H; inversion H. right. eexists. split; reflexivity.
Qed.

(** Whatever [extract_from_image] does, it either cuts no clip or cuts
    the unclamped window of a frame of the index. *)
Lemma extract_from_image_clip image_base64 video_ids w res w' :
  VideoClipExtractor.extract_from_image E image_base64 video_ids w
    = (res, w') ->
  clips w' = clips w
  \/ exists entry path out,
       In entry (Pxt.frames_view E w)
       /\ clips w' =
          {| clip_video_path := path;
             clip_start_time :=
               inject_Z (FramesView.pos_msec entry) / 1000 - delta;
             clip_end_time :=
               inject_Z (FramesView.pos_msec entry) / 1000 + delta;
             clip_output_path := out |} :: clips w.
Proof.
  unfold VideoClipExtractor.extract_from_image, try_except.
  unfold bind at 1. rewrite search_by_image_run.
  ext_step w.
  { destruct e; intros H; inversion H; left; reflexivity. }
  ext_step (with_faults fs w).
  { destruct e; intros H; inversion H; left; reflexivity. }
  destruct (ranked _ _ _ _ _) as [|entry rest] eqn:Hr; cbn [map].
  { intros H; inversion H; left; reflexivity. }
  assert (Hin : In entry (Pxt.frames_view E w)).
  { eapply ranked_incl. rewrite Hr. now left. }
  unfold bind.
  destruct (VideoClipExtractor._get_video_path _ _) as [[path|e] w1] eqn:Hp.
  2:{ apply _get_video_path_clips in Hp.
      destruct e; intros H; inversion H; subst; left; exact Hp. }
  apply _get_video_path_clips in Hp.
  destruct (VideoClipExtractor._extract_clip _ _ _ _ _) as [[out|e] w2] eqn:Hc.
  - apply _extract_clip_clips in Hc. intros H; inversion H; subst.
    destruct Hc as [Hc|(out' & Ho & Hc)].
    + left. now rewrite Hc.
    + inversion Ho; subst. right. exists entry, path, out'.
      split; [exact Hin|]. rewrite Hc. now rewrite Hp.
  - apply _extract_clip_clips in Hc.
    destruct Hc as [Hc|(out' & Ho & _)]; [|discriminate].
    destruct e; intros H; inversion H; subst; left; now rewrite Hc.
Qed.

Lemma _select_best_clip_cases speech_results caption_results w res w' :
  VideoClipExtractor._select_best_clip speech_results caption_results w
    = (res, w') ->
  w' = w
  /\ ((exists m, res = Raise (IndexError m))
      \/ exists r, res = Ok r
           /\ (hd_error speech_results = Some r
               \/ hd_error caption_results = Some r)).
Proof.
  unfold VideoClipExtractor._select_best_clip, VideoClipExtractor.item0.
  destruct (Qle_bool _ _);
    [destruct speech_results | destruct caption_results];
    unfold ret, raise; intros H; inversion H; subst; split; eauto.
Qed.

(** Whatever [extract_from_text_query] does, it either cuts no clip, or
    the window of an audio chunk, or the unclamped window of a frame. *)
Lemma extract_from_text_query_clip query video_ids w res w' :
  VideoClipExtractor.extract_from_text_query E query video_ids w
    = (res, w') ->
  clips w' = clips w
  \/ (exists a path out,
        In a (Pxt.audio_chunks_view E w)
        /\ clips w' =
           {| clip_video_path := path;
              clip_start_time := AudioView.start_time_sec a;
              clip_end_time := AudioView.end_time_sec a;
              clip_output_path := out |} :: clips w)
  \/ (exists entry path out,
        In entry (Pxt.frames_view E w)
        /\ clips w' =
           {| clip_video_path := path;
              clip_start_time :=
                inject_Z (FramesView.pos_msec entry) / 1000 - delta;
              clip_end_time :=
                inject_Z (FramesView.pos_msec entry) / 1000 + delta;
              clip_output_path := out |} :: clips w).
Proof.
  unfold VideoClipExtractor.extract_from_text_query, try_except.
  unfold bind at 1. rewrite search_by_speech_run.
  ext_step w.
  { destruct e; intros H; inversion H; left; reflexivity. }
  unfold bind at 1. rewrite search_by_caption_run.
  rewrite (frames_view_ext E w (with_faults fs w)) by reflexivity.
  ext_step (with_faults fs w).
  { destruct e; intros H; inversion H; left; reflexivity. }
  set (sp := ranked AudioView.video_id _ _ _ _).
  set (cp := ranked FramesView.video_id _ _ _ _).
  assert (Hsp : forall a, In a sp -> In a (Pxt.audio_chunks_view E w))
    by (intros a; apply ranked_incl).
  assert (Hcp : forall f, In f cp -> In f (Pxt.frames_view E w))
    by (intros f; apply ranked_incl).
  set (w2 := with_faults fs0 (with_faults fs w)).
  assert (Hw2 : clips w2 = clips w) by reflexivity.
  clearbody sp cp w2.
  assert (Hgo : forall res w',
    (let (r, w3) :=
       (best_clip <- VideoClipExtractor._select_best_clip
           (map (VideoSearchEngine.speech_clip (speech_sims E query)) sp)
           (map (VideoSearchEngine.frame_clip E (caption_sims E query)) cp) ;;
        video_path <- VideoClipExtractor._get_video_path
           (SearchResult.video_id best_clip) ;;
        relative_path <- VideoClipExtractor._extract_clip E video_path
           (SearchResult.start_time best_clip)
           (SearchResult.end_time best_clip) ;;
        ret {| type := video_t; content := relative_path |}) w2 in
     match r with
     | Ok a => (Ok a, w3)
     | Raise e =>
         match e with
         | ClipExtractionError _ => ret {| type := text; content := str e |}
         | _ => ret {| type := text;
                       content := "An unexpected error occurred. Please try again or contact support." |}
         end w3
     end) = (res, w') ->
    clips w' = clips w
    \/ (exists a path out,
          In a sp
          /\ clips w' =
             {| clip_video_path := path;
                clip_start_time := AudioView.start_time_sec a;
                clip_end_time := AudioView.end_time_sec a;
                clip_output_path := out |} :: clips w)
    \/ (exists entry path out,
          In entry cp
          /\ clips w' =
             {| clip_video_path := path;
                clip_start_time :=
                  inject_Z (FramesView.pos_msec entry) / 1000 - delta;
                clip_end_time :=
                  inject_Z (FramesView.pos_msec entry) / 1000 + delta;
                clip_output_path := out |} :: clips w)).
  { clear res w'. intros res w'. unfold bind.
    destruct (VideoClipExtractor._select_best_clip _ _ _) as [[best|e] w3] eqn:Hs.
    2:{ apply _select_best_clip_cases in Hs. destruct Hs as [-> _].
        destruct e; intros H; inversion H; subst; left; exact Hw2. }
    apply _select_best_clip_cases in Hs.
    destruct Hs as [-> [(m & Hm)|(r & Hr & Hhd)]]; [discriminate|].
    inversion Hr; subst r; clear Hr.
    destruct (VideoClipExtractor._get_video_path _ _) as [[path|e] w4] eqn:Hp.
    2:{ apply _get_video_path_clips in Hp.
        destruct e; intros H; inversion H; subst; left; congruence. }
    apply _get_video_path_clips in Hp.
    destruct (VideoClipExtractor._extract_clip _ _ _ _ _) as [[out|e] w5] eqn:Hc;
      apply _extract_clip_clips in Hc.
    - intros H; inversion H; subst.
      destruct Hc as [Hc|(out' & Ho & Hc)]; [left; congruence|].
      right. destruct Hhd as [Hhd|Hhd].
      + left. destruct sp as [|a sp']; [discriminate|].
        inversion Hhd; subst best. exists a, path, out'.
        split; [now left|]. rewrite Hc, Hp, Hw2. reflexivity.
      + right. destruct cp as [|f cp']; [discriminate|].
        inversion Hhd; subst best. exists f, path, out'.
        split; [now left|]. rewrite Hc, Hp, Hw2. reflexivity.
    - destruct Hc as [Hc|(out' & Ho & _)]; [|discriminate].
      destruct e; intros H; inversion H; subst; left; congruence. }
  intros H.
  assert (Hfin : clips w' = clips w
    \/ (exists a path out, In a sp /\ clips w' =
           {| clip_video_path := path;
              clip_start_time := AudioView.start_time_sec a;
              clip_end_time := AudioView.end_time_sec a;
              clip_output_path := out |} :: clips w)
    \/ (exists entry path out, In entry cp /\ clips w' =
           {| clip_video_path := path;
              clip_start_time :=
                inject_Z (FramesView.pos_msec entry) / 1000 - delta;
              clip_end_time :=
                inject_Z (FramesView.pos_msec entry) / 1000 + delta;
              clip_output_path := out |} :: clips w)).
  { destruct sp as [|a sp']; [destruct cp as [|f cp']|].
    - cbn [map] in H. inversion H; subst. left; exact Hw2.
    - apply (Hgo res). exact H.
    - apply (Hgo res). exact H. }
  destruct Hfin as [Hfin|[(a & path & out & Ha & Hfin)|(f & path & out & Hf & Hfin)]].
  - now left.
  - right; left. exists a, path, out. auto.
  - right; right. exists f, path, out. auto.
Qed.

End HandOff.

(** ** Choosing between the speech and the caption result *)

Section SelectBest.
Variable E : Env.

(** Both signals returned something: the greater top score wins, the
    speech result on a tie. *)
Lemma _select_best_clip_both s sp c cp w :
  VideoClipExtractor._select_best_clip (s :: sp) (c :: cp) w =
  (Ok (if Qle_bool (SearchResult.similarity c) (SearchResult.similarity s)
       then s else c), w).
Proof.
  unfold VideoClipExtractor._select_best_clip, VideoClipExtractor.item0.
  now destruct (Qle_bool _ _).
Qed.

(** Only captions: the caption result is chosen when its score is
    positive, and indexing the empty speech list fails otherwise. *)
Lemma _select_best_clip_caption_only c cp w :
  VideoClipExtractor._select_best_clip [] (c :: cp) w =
  if Qle_bool (SearchResult.similarity c) 0
  then (Raise (IndexError "list index out of range"), w)
  else (Ok c, w).
Proof.
  unfold VideoClipExtractor._select_best_clip, VideoClipExtractor.item0.
  now destruct (Qle_bool _ _).
Qed.

(** Only speech: the speech result is chosen when its score is not
    negative, and indexing the empty caption list fails otherwise. *)
Lemma _select_best_clip_speech_only s sp w :
  VideoClipExtractor._select_best_clip (s :: sp) [] w =
  if Qle_bool 0 (SearchResult.similarity s)
  then (Ok s, w)
  else (Raise (IndexError "list index out of range"), w).
Proof.
  unfold VideoClipExtractor._select_best_clip, VideoClipExtractor.item0.
  now destruct (Qle_bool _ _).
Qed.

End SelectBest.

(** Scenario C of the specification: caption score 0.81 against speech
    score 0.76; the window of the caption frame (15 s, so 10 s to 20 s) is
    the one cut. *)
Example text_query_caption_wins :
  exists w',
    VideoClipExtractor.extract_from_text_query Demo.env "show the chart" None
      Demo.both
    = (Ok {| type := video_t; content := "videos/ai_responses/clip-0.mp4" |}, w')
    /\ clips w' =
       [{| clip_video_path := Demo.talk_path;
           clip_start_time := inject_Z 15000 / 1000 - 5;
           clip_end_time := inject_Z 15000 / 1000 + 5;
           clip_output_path := "videos/ai_responses/clip-0.mp4" |}].
Proof. eexists. split; reflexivity. Qed.

(** C1 (the code departs from it).  A query scoped to the silent video:
    the speech search returns nothing, the caption search returns the one
    frame of that video with a negative score, and [_select_best_clip]
    indexes the empty speech list.  The tool answers with the generic error
    text and no clip is cut, although one signal returned a segment. *)
Theorem text_query_negative_caption_score :
  let scope := Some ["v-silent"] in
  let caption_hit :=
    {| SearchResult.video_id := "v-silent";
       SearchResult.start_time := inject_Z 3000 / 1000 - 5;
       SearchResult.end_time := inject_Z 3000 / 1000 + 5;
       SearchResult.similarity := - (5 # 100) |} in
  VideoSearchEngine.search_by_speech Demo.env "show the chart" (Some 1%nat)
    scope Demo.both = (Ok [], Demo.both)
  /\ VideoSearchEngine.search_by_caption Demo.env "show the chart"
       (Some 1%nat) scope Demo.both = (Ok [caption_hit], Demo.both)
  /\ VideoClipExtractor._select_best_clip [] [caption_hit] Demo.both
     = (Raise (IndexError "list index out of range"), Demo.both)
  /\ VideoClipExtractor.extract_from_text_query Demo.env "show the chart"
       scope Demo.both
     = (Ok {| type := text;
              content := "An unexpected error occurred. Please try again or contact support." |},
        Demo.both)
  /\ exists w',
       Tools.get_video_clip_from_user_query Demo.env "show the chart" scope
         Demo.both
       = (Ok {| type := text;
                content := "An unexpected error occurred. Please try again or contact support." |},
          w')
       /\ clips w' = [].
Proof. repeat split. eexists. split; reflexivity. Qed.

(** ** The tool boundary *)

Section Boundary.
Variable E : Env.





(** The methods behind the tools catch on their own as well. *)
Lemma extract_from_text_query_never_raises query video_ids w :
  exists r w',
    VideoClipExtractor.extract_from_text_query E query video_ids w
      = (Ok r, w').
Proof.
  unfold VideoClipExtractor.extract_from_text_query, try_except.
  destruct (bind _ _ w) as [[r|e] w1]; [eauto|].
  destruct e; unfold ret; eauto.
Qed.

Lemma extract_from_image_never_raises image_base64 video_ids w :
  exists r w',
    VideoClipExtractor.extract_from_image E image_base64 video_ids w
      = (Ok r, w').
Proof.
  unfold VideoClipExtractor.extract_from_image, try_except.
  destruct (bind _ _ w) as [[r|e] w1]; [eauto|].
  destruct e; unfold ret; eauto.
Qed.

Lemma answer_question_never_raises query video_ids w :
  exists r w',
    VideoQuestionAnswerer.answer_question E query video_ids w = (Ok r, w')
    /\ type r = text.
Proof.
  unfold VideoQuestionAnswerer.answer_question, try_except, bind.
  rewrite get_caption_info_run.
  destruct (external w) as [[[]|e] w1]; unfold ret; [|eauto].
  destruct (map _ _) as [|c cs]; [eauto|].
  destruct (VideoQuestionAnswerer._format_answer_with_sources E (c :: cs) w1)
    as [[a|e] w2]; eauto.
Qed.

End Boundary.

(** ** Deleting an unknown video *)

Lemma filter_none {A} (p : A -> bool) l :
  (forall x, In x l -> p x = false) -> filter p l = [].
Proof.
  induction l as [|x l IH]; simpl; intros H; [reflexivity|].
  rewrite (H x) by now left. apply IH. intros y Hy. apply H. now right.
Qed.

Section Deletion.
Variable E : Env.






End Deletion.

(** ** Question answering *)

Section Answers.
Variable E : Env.



(** Where the membership test of the result set answers no, every entry
    is cited as "Unknown". *)
Lemma cited_unknown w entry name :
  (forall rows, resultset_contains E "video_name" rows = false) ->
  cited E w entry name -> name = "Unknown".
Proof.
  intros Hno. unfold cited.
  destruct (filter _ _) as [|r rest]; [auto|]. now rewrite Hno.
Qed.



End Answers.

(** ** Ingestion *)

Lemma external_ok w fs :
  faults w = None :: fs -> external w = (Ok tt, with_faults fs w).
Proof. unfold external. now intros ->. Qed.

Lemma external_raise w e fs :
  faults w = Some e :: fs -> external w = (Raise e, with_faults fs w).
Proof. unfold external. now intros ->. Qed.

Section Ingestion.
Variable E : Env.


Lemma add_video_valid video_path video_id w :
  valid_video E video_path ->
  VideoProcessor.add_video E video_path video_id w =
  try_except (VideoProcessor.add_video_try video_path video_id)
    VideoProcessor.add_video_except (begin_run E video_path w).
Proof.
  intros [H1 H2]. unfold VideoProcessor.add_video.
  destruct (VideoProcessor._validate_video_file E video_path) as [v1 m1].
  destruct (VideoProcessor._validate_video_format E video_path) as [v2 m2].
  simpl in H1, H2. subst. reflexivity.
Qed.



End Ingestion.

(** The table the two runs of [TwoRecords] leave, starting from the empty
    one. *)
Lemma two_records_table :
  video_table TwoRecords.second_run =
  [Demo.row "v-1" Demo.talk_path "talk" FAILED (Some 1%Z);
   Demo.row "v-2" Demo.talk_path "talk" DONE (Some 2%Z)]
  /\ faults TwoRecords.second_run = [].
Proof. split; vm_compute; reflexivity. Qed.

Lemma two_records_reingested :
  video_table
    (snd (VideoProcessor.add_video Demo.env Demo.talk_path "v-3"
            TwoRecords.second_run)) =
  [Demo.row "v-2" Demo.talk_path "talk" DONE (Some 2%Z);
   Demo.row "v-3" Demo.talk_path "talk" DONE (Some 3%Z)].
Proof. vm_compute. reflexivity. Qed.

(** So the no-op does not hold for every table with a Done record of the
    name. *)
Lemma reingest_with_done_record_rewrites :
  ~ done_record_is_noop Demo.env TwoRecords.second_run Demo.talk_path "v-3".
Proof.
  intros H. destruct H as (w' & Hrun & Hsame & _).
  - split; vm_compute; reflexivity.
  - vm_compute; reflexivity.
  - exists (Demo.row "v-2" Demo.talk_path "talk" DONE (Some 2%Z)).
    split; [|split; vm_compute; reflexivity].
    rewrite (proj1 two_records_table). right; left; reflexivity.
  - pose proof two_records_reingested as Htab.
    rewrite Hrun in Htab. simpl snd in Htab.
    rewrite Hsame, (proj1 two_records_table) in Htab.
    discriminate Htab.
Qed.

(** C3 (the code departs from it).  The video table holds a Failed and
    then a Done record of the display name "talk".  [_is_already_added]
    reads the first record only, so the next ingestion of the file, with no
    failing call, is not skipped: it returns [True], purges the Failed
    record and writes a new row next to the Done one. *)
Theorem reingest_with_done_record_run :
  video_table TwoRecords.second_run =
    [Demo.row "v-1" Demo.talk_path "talk" FAILED (Some 1%Z);
     Demo.row "v-2" Demo.talk_path "talk" DONE (Some 2%Z)]
  /\ fst (VideoProcessor.add_video Demo.env Demo.talk_path "v-3"
            TwoRecords.second_run) = Ok true
  /\ video_table
       (snd (VideoProcessor.add_video Demo.env Demo.talk_path "v-3"
               TwoRecords.second_run)) =
     [Demo.row "v-2" Demo.talk_path "talk" DONE (Some 2%Z);
      Demo.row "v-3" Demo.talk_path "talk" DONE (Some 3%Z)].
Proof. repeat split; vm_compute; reflexivity. Qed.

(** ** A run that fails after registration *)

Lemma rows_without_none video_id rows r :
  In r (VideoProcessor.rows_without video_id rows) ->
  VideoTable.video_id r <> video_id.
Proof.
  unfold VideoProcessor.rows_without. intros H. apply filter_In in H.
  destruct H as [_ H]. apply negb_true_iff in H. now apply String.eqb_neq.
Qed.

Lemma rows_updated_status video_id st now rows r :
  In r (VideoProcessor.rows_updated (Some video_id) st now rows) ->
  VideoTable.video_id r = video_id -> VideoTable.status r = st.
Proof.
  unfold VideoProcessor.rows_updated. intros H Hid. apply in_map_iff in H.
  destruct H as (r0 & Hr & _).
  destruct (VideoTable.video_id r0 =? video_id) eqn:He.
  - now subst r.
  - subst r. apply String.eqb_neq in He. contradiction.
Qed.

Lemma rows_updated_without video_id st now rows :
  VideoProcessor.rows_updated (Some video_id) st now
    (VideoProcessor.rows_without video_id rows)
  = VideoProcessor.rows_without video_id rows.
Proof.
  unfold VideoProcessor.rows_updated.
  rewrite <- (map_id (VideoProcessor.rows_without video_id rows)) at 2.
  apply map_ext_in. intros r Hr. apply rows_without_none in Hr.
  apply String.eqb_neq in Hr. now rewrite Hr.
Qed.

Section FailedRun.
Variable E : Env.

(** The purge never raises; it removes the rows unless its call fails. *)
Lemma _cleanup_video_run video_id w :
  exists w',
    VideoProcessor._cleanup_video video_id w = (Ok tt, w')
    /\ self_video_id w' = self_video_id w
    /\ clock w' = clock w
    /\ faults w' = tl (faults w)
    /\ video_table w' =
       match faults w with
       | Some _ :: _ => video_table w
       | _ => VideoProcessor.rows_without video_id (video_table w)
       end.
Proof.
  unfold VideoProcessor._cleanup_video, VideoProcessor.delete_where_video_id,
    try_except, bind, modify, ret.
  destruct (faults w) as [|[e1|] fs] eqn:Hf.
  - rewrite (external_no_faults w Hf). eexists. split; [reflexivity|].
    cbn. now rewrite Hf.
  - rewrite (external_raise w e1 fs Hf). eexists. split; [reflexivity|].
    cbn. auto.
  - rewrite (external_ok w fs Hf). eexists. split; [reflexivity|].
    cbn. auto.
Qed.

(** Neither does the mark; it updates the rows unless its call fails. *)
Lemma _mark_failed_run video_id w :
  self_video_id w = Some video_id ->
  video_id <> "" ->
  exists w',
    VideoProcessor._mark_failed w = (Ok tt, w')
    /\ video_table w' =
       match faults w with
       | Some _ :: _ => video_table w
       | _ => VideoProcessor.rows_updated (Some video_id) FAILED (clock w)
                (video_table w)
       end.
Proof.
  intros Hid Hne. apply String.eqb_neq in Hne.
  unfold VideoProcessor._mark_failed, VideoProcessor.update_status,
    datetime_now, try_except.
  unfold bind at 1. unfold gets at 1. rewrite Hid.
  cbn [Py.truthy_str]. rewrite Hne. cbn [negb].
  unfold bind, gets, modify, ret. rewrite Hid.
  destruct (faults w) as [|[e1|] fs] eqn:Hf.
  - rewrite external_no_faults by exact Hf. eexists. split; reflexivity.
  - erewrite external_raise by exact Hf. eexists. split; reflexivity.
  - erewrite external_ok by exact Hf. eexists. split; reflexivity.
Qed.

(** The [except] block, once this run has set [self.video_id]: the purge
    is tried, then the mark, and [False] is returned whatever the two
    did. *)
Lemma add_video_except_run e video_id w1 :
  self_video_id w1 = Some video_id ->
  video_id <> "" ->
  exists w',
    VideoProcessor.add_video_except e w1 = (Ok false, w')
    /\ match faults w1 with
       | Some _ :: Some _ :: _ => video_table w' = video_table w1
       | Some _ :: _ =>
           video_table w' =
           VideoProcessor.rows_updated (Some video_id) FAILED (clock w1)
             (video_table w1)
       | _ =>
           video_table w' =
           VideoProcessor.rows_without video_id (video_table w1)
       end.
Proof.
  intros Hid Hne.
  destruct (_cleanup_video_run video_id w1)
    as (w2 & Hc & Hid2 & Hclk & Hfs & Ht2).
  rewrite Hid in Hid2.
  destruct (_mark_failed_run video_id w2 Hid2 Hne) as (w3 & Hm & Ht3).
  exists w3. split.
  - unfold VideoProcessor.add_video_except, try_except.
    unfold bind at 1. unfold gets at 1. rewrite Hid.
    assert (Htr : Py.truthy_str (Some video_id) = true).
    { cbn. apply String.eqb_neq in Hne. now rewrite Hne. }
    rewrite Htr. unfold bind at 1. rewrite Hc.
    unfold bind, gets, ret. rewrite Hid2, Htr, Hm. reflexivity.
  - rewrite Ht3, Ht2, Hfs, Hclk.
    destruct (faults w1) as [|[e1|] [|[e2|] fs]]; cbn [tl];
      try reflexivity; apply rows_updated_without.
Qed.

(** C2, as the code has it.  When the [try] block of [add_video] raises
    after this run has set its [video_id] and registered its record, the
    run returns [False], and the video table is then: without any row of
    that [video_id] when the purge went through; with every row of that
    [video_id] marked Failed when the purge failed and the mark went
    through; and as it was at the raise, the record still there, when
    both failed. *)
Theorem failed_run_outcome video_path video_id w e w1 :
  valid_video E video_path ->
  video_id <> "" ->
  VideoProcessor.add_video_try video_path video_id (begin_run E video_path w)
    = (Raise e, w1) ->
  self_video_id w1 = Some video_id ->
  (exists r, In r (video_table w1) /\ VideoTable.video_id r = video_id) ->
  exists w',
    VideoProcessor.add_video E video_path video_id w = (Ok false, w')
    /\ match faults w1 with
       | Some _ :: Some _ :: _ =>
           video_table w' = video_table w1
           /\ exists r, In r (video_table w')
                        /\ VideoTable.video_id r = video_id
       | Some _ :: _ =>
           video_table w' =
           VideoProcessor.rows_updated (Some video_id) FAILED (clock w1)
             (video_table w1)
           /\ forall r, In r (video_table w') ->
                        VideoTable.video_id r = video_id ->
                        VideoTable.status r = FAILED
       | _ =>
           video_table w' =
           VideoProcessor.rows_without video_id (video_table w1)
           /\ forall r, In r (video_table w') ->
                        VideoTable.video_id r <> video_id
       end.
Proof.
  intros Hvalid Hne Htry Hid Hreg.
  rewrite add_video_valid by exact Hvalid. unfold try_except. rewrite Htry.
  destruct (add_video_except_run e video_id w1 Hid Hne) as (w' & Hrun & Ht).
  exists w'. split; [exact Hrun|].
  destruct (faults w1) as [|[e1|] [|[e2|] fs]].
  - split; [exact Ht|]. intros r Hr. rewrite Ht in Hr.
    eapply rows_without_none; eauto.
  - split; [exact Ht|]. intros r Hr. rewrite Ht in Hr.
    eapply rows_updated_status; eauto.
  - split; [exact Ht|]. now rewrite Ht.
  - split; [exact Ht|]. intros r Hr. rewrite Ht in Hr.
    eapply rows_updated_status; eauto.
  - split; [exact Ht|]. intros r Hr. rewrite Ht in Hr.
    eapply rows_without_none; eauto.
  - split; [exact Ht|]. intros r Hr. rewrite Ht in Hr.
    eapply rows_without_none; eauto.
  - split; [exact Ht|]. intros r Hr. rewrite Ht in Hr.
    eapply rows_without_none; eauto.
Qed.


End FailedRun.

Lemma store_goes_away_try_raises :
  VideoProcessor.add_video_try Demo.talk_path "v-1"
    (begin_run Demo.env Demo.talk_path StoreGoesAway.start)
  = (Raise (Exception "connection lost"), StoreGoesAway.at_raise).
Proof. vm_compute. reflexivity. Qed.

Lemma store_goes_away_returns :
  VideoProcessor.add_video Demo.env Demo.talk_path "v-1" StoreGoesAway.start
  = (Ok false, StoreGoesAway.finish).
Proof. vm_compute. reflexivity. Qed.

(** C2 as worded fails on that run: the record is left with status
    Processing. *)
Lemma failed_run_leaves_processing_record :
  ~ failed_run_leaves_none_or_failed Demo.env StoreGoesAway.start
      Demo.talk_path "v-1".
Proof.
  intros H. unfold failed_run_leaves_none_or_failed in H.
  destruct (H _ _ store_goes_away_try_raises) as (w' & Hrun & Hall).
  - reflexivity.
  - exists (Demo.row "v-1" Demo.talk_path "talk" PROCESSING None).
    split; [now left | reflexivity].
  - rewrite store_goes_away_returns in Hrun.
    inversion Hrun; subst w'; clear Hrun.
    assert (Hst : VideoTable.status
                    (Demo.row "v-1" Demo.talk_path "talk" PROCESSING None)
                  = FAILED).
    { apply Hall; [now left | reflexivity]. }
    discriminate Hst.
Qed.

(** ** Status transitions across runs *)

(** A failing run purges the record of the run before it. *)
Example failed_run_purges_earlier_video :
  Tools.process_video Demo.env Demo.silent_path "v-silent"
    (with_faults [None; Some (Exception "lookup failed")]
       StaleVideoId.after_first)
  = (Ok false, StaleVideoId.after_second_purged).
Proof. vm_compute. reflexivity. Qed.

(** C6 (the code departs from it).  The talk is ingested and its record is
    Done.  The ingestion of another video then fails at its first lookup;
    its [except] block runs on the [video_id] the processor still holds,
    that of the talk, and the record of the talk goes from Done to
    Failed. *)
Theorem done_record_marked_failed_by_later_run :
  Tools.process_video Demo.env Demo.talk_path "v-talk" Demo.empty
  = (Ok true, StaleVideoId.after_first)
  /\ video_table StaleVideoId.after_first
     = [Demo.row "v-talk" Demo.talk_path "talk" DONE (Some 0%Z)]
  /\ Tools.process_video Demo.env Demo.silent_path "v-silent"
       (with_faults StaleVideoId.second_faults StaleVideoId.after_first)
     = (Ok false, StaleVideoId.after_second)
  /\ video_table StaleVideoId.after_second
     = [Demo.row "v-talk" Demo.talk_path "talk" FAILED (Some 1%Z)].
Proof. repeat split; vm_compute; reflexivity. Qed.

(** ** Frame windows are handed over unclamped *)

Section NoClamp.
Variable E : Env.

Local Notation "'delta'" := (DELTA_SECONDS_FRAME_INTERVAL (settings E)).

(** C10.  A result of the image or caption search whose frame lies less
    than [delta] seconds into the video has a negative [start_time], and
    its [end_time] exceeds any duration shorter than [pos + delta];
    and a clip cut by [extract_from_image], or by
    [extract_from_text_query] from a caption result, has the window
    [pos - delta, pos + delta] of a frame of the index as it is. *)
Theorem frame_window_not_clamped query video_ids w :
  (forall top_k rs w',
      VideoSearchEngine.search_by_image E query top_k video_ids w
        = (Ok rs, w')
      \/ VideoSearchEngine.search_by_caption E query top_k video_ids w
         = (Ok rs, w') ->
      forall r, In r rs ->
        exists entry, In entry (Pxt.frames_view E w)
          /\ SearchResult.video_id r = FramesView.video_id entry
          /\ SearchResult.start_time r
             == inject_Z (FramesView.pos_msec entry) / 1000 - delta
          /\ SearchResult.end_time r
             == inject_Z (FramesView.pos_msec entry) / 1000 + delta
          /\ (inject_Z (FramesView.pos_msec entry) / 1000 < delta ->
              SearchResult.start_time r < 0)
          /\ (forall video_duration : Q,
                 video_duration
                   < inject_Z (FramesView.pos_msec entry) / 1000 + delta ->
                 video_duration < SearchResult.end_time r))
  /\ (forall res w',
        VideoClipExtractor.extract_from_image E query video_ids w
          = (res, w') ->
        clips w' = clips w
        \/ exists entry path out,
             In entry (Pxt.frames_view E w)
             /\ clips w' =
                {| clip_video_path := path;
                   clip_start_time :=
                     inject_Z (FramesView.pos_msec entry) / 1000 - delta;
                   clip_end_time :=
                     inject_Z (FramesView.pos_msec entry) / 1000 + delta;
                   clip_output_path := out |} :: clips w)
  /\ (forall res w',
        VideoClipExtractor.extract_from_text_query E query video_ids w
          = (res, w') ->
        clips w' = clips w
        \/ (exists a path out,
              In a (Pxt.audio_chunks_view E w)
              /\ clips w' =
                 {| clip_video_path := path;
                    clip_start_time := AudioView.start_time_sec a;
                    clip_end_time := AudioView.end_time_sec a;
                    clip_output_path := out |} :: clips w)
        \/ (exists entry path out,
              In entry (Pxt.frames_view E w)
              /\ clips w' =
                 {| clip_video_path := path;
                    clip_start_time :=
                      inject_Z (FramesView.pos_msec entry) / 1000 - delta;
                    clip_end_time :=
                      inject_Z (FramesView.pos_msec entry) / 1000 + delta;
                    clip_output_path := out |} :: clips w)).
Proof.
  split; [|split].
  - intros top_k rs w' H. eapply frame_results_window; eauto.
  - intros res w'. apply extract_from_image_clip.
  - intros res w'. apply extract_from_text_query_clip.
Qed.

End NoClamp.

(** ** The theorems at work on the small installation *)

Lemma demo_talk_valid : valid_video Demo.env Demo.talk_path.
Proof. split; vm_compute; reflexivity. Qed.

Lemma search_respects_scope_witness :
  Forall (fun r => In (SearchResult.video_id r) ["v-silent"])
    [{| SearchResult.video_id := "v-silent";
        SearchResult.start_time := inject_Z 3000 / 1000 - 5;
        SearchResult.end_time := inject_Z 3000 / 1000 + 5;
        SearchResult.similarity := - (5 # 100) |}].
Proof.
  apply Forall_forall.
  destruct (search_respects_scope Demo.env) as (_ & Hcaption & _).
  destruct (Hcaption "show the chart" (Some 1%nat) Demo.both) as (Hscope & _).
  apply (Hscope ["v-silent"] _ Demo.both).
  - discriminate.
  - vm_compute. reflexivity.
Defined.




Lemma image_query_window_witness :
  exists v out w',
    In v (video_table Demo.silent_only)
    /\ VideoClipExtractor.extract_from_image Demo.env "silent-frame-0" None
         Demo.silent_only
       = (Ok {| type := video_t; content := out |}, w')
    /\ clips w' =
       [{| clip_video_path := VideoTable.video v;
           clip_start_time := inject_Z 3000 / 1000 - 5;
           clip_end_time := inject_Z 3000 / 1000 + 5;
           clip_output_path := out |}].
Proof.
  destruct (proj2 (image_query_window Demo.env "silent-frame-0" None
                     Demo.silent_only)
              {| FramesView.video_id := "v-silent";
                 FramesView.pos_msec := 3000;
                 FramesView.frame := "silent-frame-0";
                 FramesView.caption := "a quiet beach at dawn" |})
    as (v & out & w' & Hv & _ & Hrun & Hclips).
  - vm_compute. reflexivity.
  - discriminate.
  - reflexivity.
  - vm_compute. apply le_n.
  - intros v [<-|[]]. discriminate.
  - exists v, out, w'. auto.
Defined.

Lemma frame_window_not_clamped_witness :
  let hit :=
    {| SearchResult.video_id := "v-silent";
       SearchResult.start_time := inject_Z 3000 / 1000 - 5;
       SearchResult.end_time := inject_Z 3000 / 1000 + 5;
       SearchResult.similarity := - (5 # 100) |} in
  exists entry,
    In entry (Pxt.frames_view Demo.env Demo.both)
    /\ SearchResult.video_id hit = FramesView.video_id entry
    /\ (inject_Z (FramesView.pos_msec entry) / 1000 < 5 ->
        SearchResult.start_time hit < 0).
Proof.
  intros hit.
  destruct (proj1 (frame_window_not_clamped Demo.env "show the chart"
                     (Some ["v-silent"]) Demo.both)
              (Some 1%nat) [hit] Demo.both) with (r := hit)
    as (entry & Hin & Hid & _ & _ & Hneg & _).
  - right. vm_compute. reflexivity.
  - now left.
  - exists entry. auto.
Defined.


Lemma failed_run_outcome_witness :
  exists w',
    VideoProcessor.add_video Demo.env Demo.talk_path "v-1" StoreGoesAway.start
      = (Ok false, w')
    /\ video_table w' = video_table StoreGoesAway.at_raise.
Proof.
  destruct (failed_run_outcome Demo.env Demo.talk_path "v-1"
              StoreGoesAway.start _ _ demo_talk_valid
              ltac:(discriminate) store_goes_away_try_raises eq_refl)
    as (w' & Hrun & Hrows & _).
  - exists (Demo.row "v-1" Demo.talk_path "talk" PROCESSING None).
    split; [now left | reflexivity].
  - exists w'. auto.
Defined.

(** ** No record goes back to Processing *)

(** The rules of [keeps]. *)
Section Keeps.
Variable I : World -> Prop.


Lemma keeps_ret {A} (a : A) (Q : A -> Prop) : Q a -> keeps I (ret a) Q.
Proof.
  intros HQ w Hw. split; [exact Hw|]. intros b H.
  simpl in H. inversion H; subst. exact HQ.
Qed.

Lemma keeps_raise {A} (e : exn) (Q : A -> Prop) : keeps I (raise e) Q.
Proof. intros w Hw. split; [exact Hw|]. discriminate. Qed.

Lemma keeps_bind {A B} (m : M A) (k : A -> M B) Q R :
  keeps I m Q -> (forall a, Q a -> keeps I (k a) R) -> keeps I (bind m k) R.
Proof.
  intros Hm Hk w Hw. unfold bind. destruct (Hm w Hw) as [H1 H2].
  destruct (m w) as [[a|e] w1]; simpl in *.
  - apply (Hk a (H2 a eq_refl) w1 H1).
  - split; [exact H1|]. discriminate.
Qed.

Lemma keeps_try_except {A} (body : M A) handler Q :
  keeps I body Q -> (forall e, keeps I (handler e) Q) ->
  keeps I (try_except body handler) Q.
Proof.
  intros Hb Hh w Hw. unfold try_except. destruct (Hb w Hw) as [H1 H2].
  destruct (body w) as [[a|e] w1]; simpl in *.
  - split; [exact H1|]. intros b H. inversion H; subst. now apply H2.
  - apply (Hh e w1 H1).
Qed.

Lemma keeps_gets {A} (f : World -> A) (Q : A -> Prop) :
  (forall w, I w -> Q (f w)) -> keeps I (gets f) Q.
Proof.
  intros H w Hw. split; [exact Hw|]. intros a Ha.
  simpl in Ha. inversion Ha; subst. now apply H.
Qed.

Lemma keeps_modify (f : World -> World) :
  (forall w, I w -> I (f w)) -> keeps I (modify f) (fun _ => True).
Proof. intros H w Hw. split; [now apply H | trivial]. Qed.

Lemma keeps_weaken {A} (m : M A) (Q R : A -> Prop) :
  keeps I m Q -> (forall a, Q a -> R a) -> keeps I m R.
Proof.
  intros Hm HQR w Hw. destruct (Hm w Hw) as [H1 H2]. split; auto.
Qed.

Lemma keeps_external :
  (forall w fs, I w -> I (with_faults fs w)) ->
  keeps I external (fun _ => True).
Proof.
  intros H w Hw. split; [|trivial].
  destruct (external_cases w) as [(e & fs & _ & ->)|(fs & -> & _)];
    now apply H.
Qed.

Lemma keeps_datetime_now :
  (forall w c, I w -> I (with_clock c w)) ->
  keeps I datetime_now (fun _ => True).
Proof. intros H w Hw. split; [now apply H | trivial]. Qed.

End Keeps.

Section Transitions.
Variable E : Env.


Lemma evolves_updated r r0 vid st now :
  st = DONE \/ st = FAILED ->
  evolves r r0 ->
  forall r', In r' (VideoProcessor.rows_updated vid st now [r0]) ->
  evolves r r'.
Proof.
  intros Hst Hev r' [<-|[]].
  destruct vid as [v|]; [|exact Hev].
  destruct (VideoTable.video_id r0 =? v); [|exact Hev].
  right. cbn. destruct Hev as [->|(H1 & H2 & H3 & _)]; auto.
Qed.

Lemma descends_refl before new : descends before new before.
Proof. intros r Hr. exists r. split; [now left | now left]. Qed.

Lemma descends_without before new rows video_id :
  descends before new rows ->
  descends before new (VideoProcessor.rows_without video_id rows).
Proof.
  intros H r Hr. apply H. unfold VideoProcessor.rows_without in Hr.
  now apply filter_In in Hr.
Qed.

Lemma descends_updated before new rows vid st now :
  st = DONE \/ st = FAILED ->
  descends before new rows ->
  descends before new (VideoProcessor.rows_updated vid st now rows).
Proof.
  intros Hst H r' Hr'. unfold VideoProcessor.rows_updated in Hr'.
  apply in_map_iff in Hr'. destruct Hr' as (r0 & Heq & Hin).
  destruct (H r0 Hin) as (r & Hr & Hev). exists r. split; [exact Hr|].
  apply (evolves_updated r r0 vid st now Hst Hev). left. exact Heq.
Qed.

Lemma descends_insert before new rows :
  descends before new rows -> descends before new (rows ++ [new]).
Proof.
  intros H r Hr. apply in_app_or in Hr. destruct Hr as [Hr|[<-|[]]].
  - now apply H.
  - exists new. split; [now right | now left].
Qed.


Section Run.
Variables (before : list VideoTable.row) (video_path video_id : string).

Local Notation "'Inv'" := (run_invariant E before video_path video_id).

Lemma keeps_external_run : keeps Inv external (fun _ => True).
Proof. apply keeps_external. intros w fs H. exact H. Qed.

Lemma keeps_collect {A} (rows : list A) :
  keeps Inv (Pxt.collect rows) (fun _ => True).
Proof.
  unfold Pxt.collect. eapply keeps_bind; [apply keeps_external_run|].
  intros _ _. now apply keeps_ret.
Qed.

Lemma keeps_cleanup vid :
  keeps Inv (VideoProcessor._cleanup_video vid) (fun _ => True).
Proof.
  unfold VideoProcessor._cleanup_video, VideoProcessor.delete_where_video_id.
  apply keeps_try_except.
  - eapply keeps_bind; [apply keeps_external_run|]. intros _ _.
    apply keeps_modify. intros w [Hn Hd]. split; [exact Hn|].
    now apply descends_without.
  - intros e. now apply keeps_ret.
Qed.

Lemma keeps_update_status st :
  st = DONE \/ st = FAILED ->
  keeps Inv (VideoProcessor.update_status st) (fun _ => True).
Proof.
  intros Hst. unfold VideoProcessor.update_status.
  eapply keeps_bind; [apply keeps_gets with (Q := fun _ => True); trivial|].
  intros vid _.
  eapply keeps_bind;
    [apply keeps_datetime_now; intros w c H; exact H|].
  intros now _.
  eapply keeps_bind; [apply keeps_external_run|]. intros _ _.
  apply keeps_modify. intros w [Hn Hd]. split; [exact Hn|].
  now apply descends_updated.
Qed.

Lemma keeps_mark_failed :
  keeps Inv VideoProcessor._mark_failed (fun _ => True).
Proof.
  unfold VideoProcessor._mark_failed.
  eapply keeps_bind; [apply keeps_gets with (Q := fun _ => True); trivial|].
  intros vid _. destruct (negb (Py.truthy_str vid)).
  - now apply keeps_ret.
  - apply keeps_try_except.
    + apply keeps_update_status. now right.
    + intros e. now apply keeps_ret.
Qed.

Lemma keeps_add_video_try :
  keeps Inv (VideoProcessor.add_video_try video_path video_id)
    (fun _ => True).
Proof.
  unfold VideoProcessor.add_video_try,
    VideoProcessor._ensure_dirs_and_tables_exist,
    VideoProcessor._is_already_added.
  eapply keeps_bind; [apply keeps_external_run|]. intros _ _.
  eapply keeps_bind with (Q := fun _ => True).
  { eapply keeps_bind; [apply keeps_gets with (Q := fun _ => True); trivial|].
    intros rows _.
    eapply keeps_bind; [apply keeps_gets with (Q := fun _ => True); trivial|].
    intros name _.
    eapply keeps_bind; [apply keeps_collect|]. intros existing _.
    destruct existing; now apply keeps_ret. }
  intros already _. destruct already; [now apply keeps_ret|].
  eapply keeps_bind; [apply keeps_gets with (Q := fun _ => True); trivial|].
  intros rows _.
  eapply keeps_bind; [apply keeps_gets with (Q := fun _ => True); trivial|].
  intros name _.
  eapply keeps_bind; [apply keeps_collect|]. intros existing _.
  eapply keeps_bind with (Q := fun _ => True).
  { destruct existing; [now apply keeps_ret | apply keeps_cleanup]. }
  intros _ _.
  eapply keeps_bind;
    [apply keeps_modify; intros w H; exact H|]. intros _ _.
  eapply keeps_bind
    with (Q := fun name => name = path_stem E video_path).
  { apply keeps_gets. intros w [Hn _]. exact Hn. }
  intros name' ->.
  eapply keeps_bind with (Q := fun _ => True).
  { unfold VideoProcessor.insert.
    eapply keeps_bind; [apply keeps_external_run|]. intros _ _.
    apply keeps_modify. intros w [Hn Hd]. split; [exact Hn|].
    now apply descends_insert. }
  intros _ _.
  eapply keeps_bind with (Q := fun _ => True).
  { apply keeps_update_status. now left. }
  intros _ _. now apply keeps_ret.
Qed.

Lemma keeps_add_video_except e :
  keeps Inv (VideoProcessor.add_video_except e) (fun _ => True).
Proof.
  unfold VideoProcessor.add_video_except.
  eapply keeps_bind; [apply keeps_gets with (Q := fun _ => True); trivial|].
  intros vid _.
  eapply keeps_bind with (Q := fun _ => True).
  { destruct vid as [v|]; [|now apply keeps_ret].
    destruct (Py.truthy_str (Some v));
      [apply keeps_cleanup | now apply keeps_ret]. }
  intros _ _.
  eapply keeps_bind with (Q := fun _ => True).
  { apply keeps_try_except; [|intros e'; now apply keeps_ret].
    eapply keeps_bind; [apply keeps_gets with (Q := fun _ => True); trivial|].
    intros vid' _. destruct (Py.truthy_str vid');
      [apply keeps_mark_failed | now apply keeps_ret]. }
  intros _ _. now apply keeps_ret.
Qed.

End Run.

(** X23.  Whatever the external calls do, and whatever [self.video_id] the
    processor still holds, one run of [add_video] leaves every record
    either as it was, or with its status set to Done or Failed, or new; a
    record with status Processing after the run had it before, or is the
    record the run inserted.  No record is moved back to Processing. *)
Lemma add_video_statuses_only_advance video_path video_id w :
  let new :=
    {| VideoTable.video_id := video_id;
       VideoTable.video := video_path;
       VideoTable.video_name := path_stem E video_path;
       VideoTable.status := PROCESSING;
       VideoTable.processed_at := None |} in
  let after :=
    video_table (snd (VideoProcessor.add_video E video_path video_id w)) in
  descends (video_table w) new after
  /\ forall r', In r' after -> VideoTable.status r' = PROCESSING ->
                In r' (video_table w) \/ r' = new.
Proof.
  intros new after.
  assert (Hd : descends (video_table w) new after).
  { subst after. unfold VideoProcessor.add_video.
    destruct (VideoProcessor._validate_video_file E video_path) as [[|] m1];
      cbn [negb]; [|apply descends_refl].
    destruct (VideoProcessor._validate_video_format E video_path) as [[|] m2];
      cbn [negb]; [|apply descends_refl].
    unfold bind, modify.
    apply (keeps_try_except
             (run_invariant E (video_table w) video_path video_id)
             _ _ (fun _ => True)
             (keeps_add_video_try _ _ _)
             (keeps_add_video_except _ _ _)).
    split; [reflexivity | apply descends_refl]. }
  split; [exact Hd|].
  intros r' Hin Hst. destruct (Hd r' Hin) as (r & Hr & Hev).
  destruct Hev as [->|(_ & _ & _ & [H|H])]; [|congruence|congruence].
  destruct Hr; auto.
Qed.

(** X24.  [delete_video] only removes rows: whatever the external calls do,
    every record in the video table after the call was in it before. *)
Lemma delete_video_only_removes video_id w :
  incl (video_table (snd (VideoProcessor.delete_video video_id w)))
       (video_table w).
Proof.
  assert (H : keeps (fun w' => incl (video_table w') (video_table w))
                (VideoProcessor.delete_video video_id) (fun _ => True)).
  { unfold VideoProcessor.delete_video.
    apply keeps_try_except; [|intros e; now apply keeps_ret].
    destruct (video_id =? ""); [now apply keeps_ret|].
    eapply keeps_bind; [apply keeps_gets with (Q := fun _ => True); trivial|].
    intros rows _.
    eapply keeps_bind with (Q := fun _ => True).
    { unfold Pxt.collect.
      eapply keeps_bind;
        [apply keeps_external; intros w' fs Hw'; exact Hw'|].
      intros _ _. now apply keeps_ret. }
    intros existing _. destruct existing; [now apply keeps_ret|].
    eapply keeps_bind with (Q := fun _ => True); [|intros; now apply keeps_ret].
    unfold VideoProcessor._cleanup_video, VideoProcessor.delete_where_video_id.
    apply keeps_try_except; [|intros e; now apply keeps_ret].
    eapply keeps_bind;
      [apply keeps_external; intros w' fs Hw'; exact Hw'|].
    intros _ _. apply keeps_modify. intros w' Hw' row Hrow.
    apply Hw'. cbn in Hrow. unfold VideoProcessor.rows_without in Hrow.
    now apply filter_In in Hrow. }
  apply (H w). apply incl_refl.
Qed.

End Transitions.

(* ===================================================================== *)
(** * Further properties of the code *)
(* ===================================================================== *)

(** ** [str.strip] *)










(** ** validators.py *)




(** X4.  What [VideoPathValidator.validate] returns is the resolved path,
    which lies in the shared media directory and is an existing regular
    file, and the world is unchanged.  [process_video] returns [False]
    without constructing the processor, calling the store or writing
    anything when the path is blank, does not resolve, resolves outside the
    shared media directory, or to no file or to something that is not a
    regular file, and when the video id is blank. *)
Theorem process_video_rejects_before_any_effect (E : Env)
  (video_path video_id : string) (w : World) :
  (forall path w',
      VideoPathValidator.validate E video_path w = (Ok path, w') ->
      w' = w
      /\ path_resolve E video_path = Some path
      /\ within_shared_media E path = true
      /\ exists st, stat E path = Some st /\ is_file st = true)
  /\ (Py.blank video_path = true
      \/ path_resolve E video_path = None
      \/ (exists path,
            path_resolve E video_path = Some path
            /\ (within_shared_media E path = false
                \/ stat E path = None
                \/ exists st, stat E path = Some st /\ is_file st = false))
      \/ Py.blank video_id = true ->
      Tools.process_video E video_path video_id w = (Ok false, w)).
Proof.
  unfold Tools.process_video, Tools.process_video_try, try_except, bind.
  unfold VideoPathValidator.validate, VideoIdValidator.validate.
  destruct (Py.blank video_path) eqn:Hb.
  { split; [discriminate|]. reflexivity. }
  destruct (path_resolve E video_path) as [path|] eqn:Hr.
  2:{ split; [discriminate|]. reflexivity. }
  destruct (within_shared_media E path) eqn:Hw; cbn [negb].
  2:{ split; [discriminate|]. reflexivity. }
  destruct (stat E path) as [st|] eqn:Hs.
  2:{ split; [discriminate|]. reflexivity. }
  destruct (is_file st) eqn:Hf; cbn [negb].
  2:{ split; [discriminate|]. reflexivity. }
  split.
  - intros p w' H. inversion H; subst. eauto 6.
  - intros [H|[H|[(p & Hp & H)|H]]]; try discriminate.
    + inversion Hp; subst p.
      destruct H as [H|[H|(st' & H1 & H2)]]; congruence.
    + rewrite H. reflexivity.
Qed.



Lemma process_video_rejects_before_any_effect_witness :
  Tools.process_video Demo.env "/etc/passwd" "v-1" Demo.both
  = (Ok false, Demo.both).
Proof.
  apply (proj2 (process_video_rejects_before_any_effect Demo.env
                  "/etc/passwd" "v-1" Demo.both)).
  right. right. left. exists "/etc/passwd".
  split; [reflexivity|]. left. vm_compute. reflexivity.
Defined.


(** ** video/ingestion/video_processor.py, continued *)

(** Reading a field of a world some fields of which were set. *)
Ltac fields :=
  cbn [video_table clock faults self_video_name self_video_id
       self_video_path _video_processor _clip_extractor _question_answerer
       uuid_count clips
       with_video_table with_clock with_faults with_self_video_name
       with_self_video_id with_self_video_path with_singletons with_clips].

(** Running a block none of whose external calls fails. *)
Ltac run_no_faults Hf :=
  unfold Pxt.collect, datetime_now, try_except, bind, gets, modify, ret,
    raise, external;
  repeat (fields; rewrite ?Hf).

Lemma VideoStatus_eqb_DONE st :
  VideoStatus_eqb st DONE = false <-> st <> DONE.
Proof. destruct st; simpl; split; congruence. Qed.

Lemma rows_updated_fresh video_id st now rows :
  (forall r, In r rows -> VideoTable.video_id r <> video_id) ->
  VideoProcessor.rows_updated (Some video_id) st now rows = rows.
Proof.
  intros H. unfold VideoProcessor.rows_updated.
  rewrite <- (map_id rows) at 2. apply map_ext_in. intros r Hr.
  apply H in Hr. apply String.eqb_neq in Hr. now rewrite Hr.
Qed.


Lemma rows_without_In video_id rows r :
  In r (VideoProcessor.rows_without video_id rows)
  <-> In r rows /\ VideoTable.video_id r <> video_id.
Proof.
  unfold VideoProcessor.rows_without. rewrite filter_In, negb_true_iff.
  now rewrite String.eqb_neq.
Qed.

Section MoreIngestion.
Variable E : Env.

(** The [try] block of [add_video] when no external call fails and the
    first record of the name, if any, is not Done. *)
Lemma add_video_try_run video_path video_id w :
  faults w = [] ->
  match filter (fun r => VideoTable.video_name r =? self_video_name w)
               (video_table w) with
  | [] => True
  | r :: _ => VideoTable.status r <> DONE
  end ->
  exists w',
    VideoProcessor.add_video_try video_path video_id w = (Ok true, w')
    /\ video_table w' =
       VideoProcessor.rows_updated (Some video_id) DONE (clock w)
         (match filter (fun r => VideoTable.video_name r =? self_video_name w)
                       (video_table w) with
          | [] => video_table w
          | r :: _ =>
              VideoProcessor.rows_without (VideoTable.video_id r)
                (video_table w)
          end
          ++ [{| VideoTable.video_id := video_id;
                 VideoTable.video := video_path;
                 VideoTable.video_name := self_video_name w;
                 VideoTable.status := PROCESSING;
                 VideoTable.processed_at := None |}])
    /\ self_video_id w' = Some video_id
    /\ clock w' = (clock w + 1)%Z
    /\ faults w' = []
    /\ clips w' = clips w
    /\ _video_processor w' = _video_processor w.
Proof.
  intros Hf Hex.
  unfold VideoProcessor.add_video_try,
    VideoProcessor._ensure_dirs_and_tables_exist,
    VideoProcessor._is_already_added, VideoProcessor._cleanup_video,
    VideoProcessor.delete_where_video_id, VideoProcessor._mark_done,
    VideoProcessor.update_status, VideoProcessor.insert.
  run_no_faults Hf.
  destruct (filter _ (video_table w)) as [|r rest] eqn:Hexi.
  - repeat (fields; rewrite ?Hf, ?Hexi). eexists.
    repeat (split; [reflexivity|]); fields; auto.
  - apply VideoStatus_eqb_DONE in Hex. rewrite Hex.
    repeat (fields; rewrite ?Hf, ?Hexi). eexists.
    repeat (split; [reflexivity|]); fields; auto.
Qed.

Lemma frames_view_snoc w w' v :
  video_table w' = (video_table w ++ [v])%list ->
  Pxt.frames_view E w' = (Pxt.frames_view E w ++ Pxt.frames_of E v)%list.
Proof.
  unfold Pxt.frames_view. intros ->. rewrite flat_map_app. simpl.
  now rewrite app_nil_r.
Qed.

Lemma audio_chunks_view_snoc w w' v :
  video_table w' = (video_table w ++ [v])%list ->
  Pxt.audio_chunks_view E w'
  = (Pxt.audio_chunks_view E w ++ Pxt.audio_of E v)%list.
Proof.
  unfold Pxt.audio_chunks_view. intros ->. rewrite flat_map_app. simpl.
  now rewrite app_nil_r.
Qed.


(** X6.  First ingestion.  For a file that passes validation, with no
    failing external call and no record of the file's display name in the
    video table, [add_video] returns [True]; the table is the old one with
    the new record appended, and every record that carries the new
    [video_id] is set to Done at the time of the run.  When the [video_id]
    is new to the table, the other records are untouched, the new record is
    the last one, and its frames and audio chunks are appended to the two
    views. *)
Theorem add_video_first_ingestion (video_path video_id : string) (w : World) :
  valid_video E video_path ->
  faults w = [] ->
  (forall r, In r (video_table w) ->
             VideoTable.video_name r <> path_stem E video_path) ->
  exists w',
    VideoProcessor.add_video E video_path video_id w = (Ok true, w')
    /\ video_table w' =
       VideoProcessor.rows_updated (Some video_id) DONE (clock w)
         (video_table w ++ [record_of E video_path video_id PROCESSING None])
    /\ self_video_id w' = Some video_id
    /\ ((forall r, In r (video_table w) ->
                   VideoTable.video_id r <> video_id) ->
        let done :=
          record_of E video_path video_id DONE (Some (clock w)) in
        video_table w' = (video_table w ++ [done])%list
        /\ Pxt.frames_view E w'
           = (Pxt.frames_view E w ++ Pxt.frames_of E done)%list
        /\ Pxt.audio_chunks_view E w'
           = (Pxt.audio_chunks_view E w ++ Pxt.audio_of E done)%list).
Proof.
  intros Hv Hf Hname.
  rewrite (add_video_valid E video_path video_id w Hv).
  unfold try_except.
  assert (Hnone :
    filter (fun r => VideoTable.video_name r
                     =? self_video_name (begin_run E video_path w))
           (video_table (begin_run E video_path w)) = []).
  { apply filter_none. intros r Hr. apply String.eqb_neq.
    apply (Hname r Hr). }
  destruct (add_video_try_run video_path video_id (begin_run E video_path w))
    as (w' & Hrun & Ht & Hid & _); [exact Hf | now rewrite Hnone |].
  rewrite Hnone in Ht. rewrite Hrun. exists w'.
  split; [reflexivity|]. split; [exact Ht|]. split; [exact Hid|].
  intros Hfresh. cbv zeta.
  assert (Htable : video_table w' =
    (video_table w
     ++ [record_of E video_path video_id DONE (Some (clock w))])%list).
  { rewrite Ht. unfold VideoProcessor.rows_updated. rewrite map_app.
    fold (VideoProcessor.rows_updated (Some video_id) DONE
            (clock (begin_run E video_path w))
            (video_table (begin_run E video_path w))).
    rewrite (rows_updated_fresh video_id DONE _ _ Hfresh).
    cbn [map VideoTable.video_id]. rewrite String.eqb_refl. reflexivity. }
  split; [exact Htable|].
  split; [now apply frames_view_snoc | now apply audio_chunks_view_snoc].
Qed.

(** X7.  Reprocessing.  For a file that passes validation, with no failing
    external call, when the first record of the file's display name is not
    Done, [add_video] returns [True]: every record carrying the
    [video_id] of that first record is deleted (other records of the name,
    under another id, stay), then the new record is appended and set to
    Done.  Unless the new [video_id] is the old one, no record of the old
    id remains. *)
Theorem add_video_reprocesses_unfinished (video_path video_id : string)
  (w : World) (old : VideoTable.row) (rest : list VideoTable.row) :
  valid_video E video_path ->
  faults w = [] ->
  filter (fun r => VideoTable.video_name r =? path_stem E video_path)
         (video_table w) = old :: rest ->
  VideoTable.status old <> DONE ->
  exists w',
    VideoProcessor.add_video E video_path video_id w = (Ok true, w')
    /\ video_table w' =
       VideoProcessor.rows_updated (Some video_id) DONE (clock w)
         (VideoProcessor.rows_without (VideoTable.video_id old)
            (video_table w)
          ++ [record_of E video_path video_id PROCESSING None])
    /\ In (record_of E video_path video_id DONE (Some (clock w)))
          (video_table w')
    /\ (VideoTable.video_id old <> video_id ->
        forall r, In r (video_table w') ->
                  VideoTable.video_id r <> VideoTable.video_id old).
Proof.
  intros Hv Hf Hex Hst.
  rewrite (add_video_valid E video_path video_id w Hv).
  unfold try_except.
  assert (Hex' :
    filter (fun r => VideoTable.video_name r
                     =? self_video_name (begin_run E video_path w))
           (video_table (begin_run E video_path w)) = old :: rest)
    by exact Hex.
  destruct (add_video_try_run video_path video_id (begin_run E video_path w))
    as (w' & Hrun & Ht & _); [exact Hf | now rewrite Hex' |].
  rewrite Hex' in Ht. rewrite Hrun. exists w'.
  split; [reflexivity|]. split; [exact Ht|]. split.
  - rewrite Ht. unfold VideoProcessor.rows_updated. rewrite map_app.
    apply in_or_app. right. cbn [map VideoTable.video_id].
    rewrite String.eqb_refl. left. reflexivity.
  - intros Hne r Hr. rewrite Ht in Hr.
    unfold VideoProcessor.rows_updated in Hr. apply in_map_iff in Hr.
    destruct Hr as (r0 & Hr0 & Hin).
    assert (Hid : VideoTable.video_id r = VideoTable.video_id r0)
      by (subst r; destruct (VideoTable.video_id r0 =? video_id);
          reflexivity).
    rewrite Hid. apply in_app_or in Hin. destruct Hin as [Hin|[<-|[]]].
    + now apply rows_without_In in Hin.
    + cbn. congruence.
Qed.




End MoreIngestion.


Lemma add_video_first_ingestion_witness :
  exists w',
    VideoProcessor.add_video Demo.env Demo.talk_path "v-talk" Demo.empty
      = (Ok true, w')
    /\ video_table w'
       = [Demo.row "v-talk" Demo.talk_path "talk" DONE (Some 0%Z)].
Proof.
  destruct (add_video_first_ingestion Demo.env Demo.talk_path "v-talk"
              Demo.empty) as (w' & Hrun & _ & _ & Hfresh).
  - exact demo_talk_valid.
  - reflexivity.
  - intros r [].
  - exists w'. split; [exact Hrun|].
    destruct Hfresh as (Ht & _); [intros r []|]. exact Ht.
Defined.

Lemma add_video_reprocesses_unfinished_witness :
  exists w',
    VideoProcessor.add_video Demo.env Demo.talk_path "v-new"
      (Demo.with_rows
         [Demo.row "v-old" Demo.talk_path "talk" FAILED (Some 0%Z)])
      = (Ok true, w')
    /\ In (Demo.row "v-new" Demo.talk_path "talk" DONE (Some 0%Z))
          (video_table w').
Proof.
  destruct (add_video_reprocesses_unfinished Demo.env Demo.talk_path "v-new"
              (Demo.with_rows
                 [Demo.row "v-old" Demo.talk_path "talk" FAILED (Some 0%Z)])
              (Demo.row "v-old" Demo.talk_path "talk" FAILED (Some 0%Z)) [])
    as (w' & Hrun & _ & Hin & _).
  - exact demo_talk_valid.
  - reflexivity.
  - reflexivity.
  - discriminate.
  - exists w'. split; [exact Hrun | exact Hin].
Defined.

(** ** Deleting a video *)

Section MoreDeletion.
Variable E : Env.

Lemma frames_view_without video_id w f :
  In f (Pxt.frames_view E
          (with_video_table (VideoProcessor.rows_without video_id) w)) ->
  FramesView.video_id f <> video_id.
Proof.
  unfold Pxt.frames_view. fields. intros H. apply in_flat_map in H.
  destruct H as (v & Hv & Hf). apply rows_without_In in Hv.
  unfold Pxt.frames_of in Hf. apply in_map_iff in Hf.
  destruct Hf as ([[pos img] cap] & <- & _). exact (proj2 Hv).
Qed.

Lemma audio_chunks_view_without video_id w a :
  In a (Pxt.audio_chunks_view E
          (with_video_table (VideoProcessor.rows_without video_id) w)) ->
  AudioView.video_id a <> video_id.
Proof.
  unfold Pxt.audio_chunks_view. fields. intros H. apply in_flat_map in H.
  destruct H as (v & Hv & Ha). apply rows_without_In in Hv.
  unfold Pxt.audio_of in Ha. apply in_map_iff in Ha.
  destruct Ha as ([[s e] txt] & <- & _). exact (proj2 Hv).
Qed.

Lemma processor_delete_known video_id w :
  faults w = [] ->
  video_id <> "" ->
  (exists r, In r (video_table w) /\ VideoTable.video_id r = video_id) ->
  VideoProcessor.delete_video video_id w
  = (Ok true, with_video_table (VideoProcessor.rows_without video_id) w).
Proof.
  intros Hf Hne (r & Hr & Hid).
  destruct (filter_nonempty
              (fun r => VideoTable.video_id r =? video_id)
              (video_table w) r Hr) as (y & rest & Hy & _).
  { now apply String.eqb_eq. }
  apply String.eqb_neq in Hne.
  unfold VideoProcessor.delete_video, VideoProcessor._cleanup_video,
    VideoProcessor.delete_where_video_id.
  rewrite Hne. run_no_faults Hf. rewrite Hy. run_no_faults Hf.
  reflexivity.
Qed.

(** X9.  Deleting a known video.  With no failing external call, for a
    non-empty [video_id] that some record carries, [delete_video] returns
    [True] and changes only the video table: it removes every record of
    that id and keeps the others, in their order.  After it no frame and no
    audio chunk of that id is left in the views the searches read, and a
    second [delete_video] of the id returns [False] and changes nothing. *)
Theorem delete_video_removes_video (video_id : string) (w : World) :
  faults w = [] ->
  video_id <> "" ->
  (exists r, In r (video_table w) /\ VideoTable.video_id r = video_id) ->
  let w' := with_video_table (VideoProcessor.rows_without video_id) w in
  VideoProcessor.delete_video video_id w = (Ok true, w')
  /\ video_table w'
     = filter (fun r => negb (VideoTable.video_id r =? video_id))
              (video_table w)
  /\ (forall f, In f (Pxt.frames_view E w') ->
                FramesView.video_id f <> video_id)
  /\ (forall a, In a (Pxt.audio_chunks_view E w') ->
                AudioView.video_id a <> video_id)
  /\ VideoProcessor.delete_video video_id w' = (Ok false, w').
Proof.
  intros Hf Hne Hknown w'.
  assert (Hgone :
    filter (fun r => VideoTable.video_id r =? video_id) (video_table w') = []).
  { apply filter_none. intros x Hx. apply String.eqb_neq.
    unfold w' in Hx. fields. now apply rows_without_In in Hx. }
  split.
  - now apply processor_delete_known.
  - apply String.eqb_neq in Hne.
    split; [reflexivity|].
    split; [intros f; apply frames_view_without|].
    split; [intros a; apply audio_chunks_view_without|].
    unfold VideoProcessor.delete_video. rewrite Hne.
    assert (Hf' : faults w' = []) by exact Hf.
    run_no_faults Hf'. rewrite Hgone. reflexivity.
Qed.

(** X10.  [delete_video] reports success as soon as the lookup finds the
    video: when the lookup succeeds and the delete call itself raises, it
    still returns [True], and every record is still in the table. *)
Theorem delete_video_true_though_nothing_deleted (video_id : string)
  (w : World) (e : exn) (fs : list (option exn)) :
  faults w = None :: Some e :: fs ->
  video_id <> "" ->
  (exists r, In r (video_table w) /\ VideoTable.video_id r = video_id) ->
  VideoProcessor.delete_video video_id w = (Ok true, with_faults fs w)
  /\ video_table (with_faults fs w) = video_table w.
Proof.
  intros Hf Hne (r & Hr & Hid).
  destruct (filter_nonempty
              (fun r => VideoTable.video_id r =? video_id)
              (video_table w) r Hr) as (y & rest & Hy & _).
  { now apply String.eqb_eq. }
  apply String.eqb_neq in Hne.
  split; [|reflexivity].
  unfold VideoProcessor.delete_video, VideoProcessor._cleanup_video,
    VideoProcessor.delete_where_video_id.
  rewrite Hne.
  unfold Pxt.collect, try_except, bind, gets, modify, ret, external.
  rewrite Hf, Hy. fields. reflexivity.
Qed.

End MoreDeletion.

Lemma delete_video_removes_video_witness :
  VideoProcessor.delete_video "v-talk" Demo.both
  = (Ok true,
     with_video_table (VideoProcessor.rows_without "v-talk") Demo.both).
Proof.
  apply (delete_video_removes_video Demo.env "v-talk" Demo.both).
  - reflexivity.
  - discriminate.
  - exists (Demo.row "v-talk" Demo.talk_path "talk" DONE (Some 0%Z)).
    split; [left; reflexivity | reflexivity].
Defined.

Lemma delete_video_true_though_nothing_deleted_witness :
  VideoProcessor.delete_video "v-talk"
    (with_faults [None; Some (Exception "delete failed")] Demo.both)
  = (Ok true,
     with_faults []
       (with_faults [None; Some (Exception "delete failed")] Demo.both)).
Proof.
  apply (delete_video_true_though_nothing_deleted "v-talk"
           (with_faults [None; Some (Exception "delete failed")] Demo.both)
           (Exception "delete failed") []).
  - reflexivity.
  - discriminate.
  - exists (Demo.row "v-talk" Demo.talk_path "talk" DONE (Some 0%Z)).
    split; [left; reflexivity | reflexivity].
Defined.

(** ** The [video_id] a processor holds between runs *)

Section HeldVideoId.
Variable E : Env.

Lemma add_video_try_early_raise video_path video_id w e :
  faults w = [Some e] \/ faults w = [None; Some e] ->
  VideoProcessor.add_video_try video_path video_id (begin_run E video_path w)
  = (Raise e, with_faults [] (begin_run E video_path w)).
Proof.
  unfold VideoProcessor.add_video_try,
    VideoProcessor._ensure_dirs_and_tables_exist,
    VideoProcessor._is_already_added, Pxt.collect, begin_run,
    bind, gets, ret, external.
  intros [Hf|Hf]; fields; rewrite Hf; fields; reflexivity.
Qed.

(** X11.  [self.video_id] is assigned only once the lookups of a run have
    succeeded, and the [except] block of [add_video] reads it.  So when a
    run for a valid file raises before that point (the tables cannot be
    loaded, or the lookup by name fails) and the store answers again
    afterwards, [add_video] returns [False] and deletes every record of the
    id the processor holds from its previous run, whatever video the
    failing run was for; a processor that holds no id leaves the table as
    it is. *)
Theorem early_failure_purges_held_video (video_path video_id : string)
  (w : World) (e : exn) :
  valid_video E video_path ->
  faults w = [Some e] \/ faults w = [None; Some e] ->
  (forall held,
      self_video_id w = Some held -> held <> "" ->
      exists w',
        VideoProcessor.add_video E video_path video_id w = (Ok false, w')
        /\ video_table w'
           = VideoProcessor.rows_without held (video_table w))
  /\ (self_video_id w = None ->
      exists w',
        VideoProcessor.add_video E video_path video_id w = (Ok false, w')
        /\ video_table w' = video_table w).
Proof.
  intros Hv Hf.
  rewrite (add_video_valid E video_path video_id w Hv).
  unfold try_except. rewrite (add_video_try_early_raise _ _ _ _ Hf).
  split.
  - intros held Hheld Hne.
    destruct (add_video_except_run e held
                (with_faults [] (begin_run E video_path w)))
      as (w' & Hrun & Ht); [exact Hheld | exact Hne |].
    exists w'. split; [exact Hrun | exact Ht].
  - intros Hnone. eexists.
    unfold VideoProcessor.add_video_except, try_except, bind, gets, ret,
      begin_run.
    repeat (fields; rewrite ?Hnone; cbn [Py.truthy_str]).
    split; reflexivity.
Qed.

End HeldVideoId.

Lemma early_failure_purges_held_video_witness :
  exists w',
    VideoProcessor.add_video Demo.env Demo.silent_path "v-silent"
      (with_faults [None; Some (Exception "lookup failed")]
         (with_self_video_id (Some "v-talk")
            (Demo.with_rows
               [Demo.row "v-talk" Demo.talk_path "talk" DONE (Some 0%Z)])))
    = (Ok false, w')
    /\ video_table w' = [].
Proof.
  apply (proj1 (early_failure_purges_held_video Demo.env Demo.silent_path
                  "v-silent"
                  (with_faults [None; Some (Exception "lookup failed")]
                     (with_self_video_id (Some "v-talk")
                        (Demo.with_rows
                           [Demo.row "v-talk" Demo.talk_path "talk" DONE
                              (Some 0%Z)])))
                  (Exception "lookup failed")
                  ltac:(split; vm_compute; reflexivity)
                  (or_intror eq_refl)) "v-talk").
  - reflexivity.
  - discriminate.
Defined.

(** ** video/search_video.py, continued *)

Lemma StronglySorted_map {A B} (f : A -> B) (R : B -> B -> Prop) l :
  StronglySorted (fun a b => R (f a) (f b)) l ->
  StronglySorted R (map f l).
Proof.
  induction 1 as [|a l Hl IH Ha]; simpl; constructor; [exact IH|].
  apply Forall_forall. intros b Hb. apply in_map_iff in Hb.
  destruct Hb as (x & <- & Hx). rewrite Forall_forall in Ha. now apply Ha.
Qed.

Lemma ranked_length {R} (vid : R -> string) (sims : R -> Q) ids top_k rows :
  length (ranked vid sims ids top_k rows)
  = Nat.min top_k (length (VideoSearchEngine.where_video_ids vid ids rows)).
Proof.
  unfold ranked, Pxt.limit. now rewrite length_firstn, order_by_desc_length.
Qed.

Lemma ranked_of_nothing {R} (vid : R -> string) (sims : R -> Q) ids top_k
  rows :
  VideoSearchEngine.where_video_ids vid ids rows = [] ->
  ranked vid sims ids top_k rows = [].
Proof.
  unfold ranked, Pxt.limit. intros ->. simpl. apply firstn_nil.
Qed.

Lemma external_store w :
  video_table (snd (external w)) = video_table w
  /\ clips (snd (external w)) = clips w
  /\ uuid_count (snd (external w)) = uuid_count w.
Proof.
  unfold external. destruct (faults w) as [|[e|] fs]; repeat split.
Qed.

Lemma ranks_descending_intro {R T} (vid : R -> string) (sim' : T -> Q)
  (proj : (R -> Q) -> R -> T) (sims : string -> R -> Q) (d : nat)
  (view : World -> list R)
  (search : string -> option nat -> option (list string) -> M (list T)) :
  (forall s r, sim' (proj s r) = s r) ->
  (forall q k ids w rs w',
      search q k ids w = (Ok rs, w') ->
      rs = map (proj (sims q))
             (ranked vid (sims q) ids (Py.or_default k d) (view w))) ->
  (forall q ids w, search q (Some 0%nat) ids w = search q None ids w) ->
  (forall q k ids w,
      video_table (snd (search q k ids w)) = video_table w
      /\ clips (snd (search q k ids w)) = clips w) ->
  ranks_descending sim' d
    (fun ids w => length (VideoSearchEngine.where_video_ids vid ids (view w)))
    search.
Proof.
  intros Hsim Hrun Hzero Hstore query top_k video_ids w.
  split; [apply Hzero|].
  split; [apply Hstore|]. split; [apply Hstore|].
  intros rs w' H. apply Hrun in H. subst rs. split.
  - apply StronglySorted_map.
    eapply StronglySorted_ind
      with (P := fun l => StronglySorted
                   (fun a b => (sim' (proj (sims query) b)
                                <= sim' (proj (sims query) a))%Q) l).
    + constructor.
    + intros a l _ IH Ha. constructor; [exact IH|].
      eapply Forall_impl; [|exact Ha]. intros b Hb.
      rewrite !Hsim. exact Hb.
    + apply ranked_sorted.
  - now rewrite length_map, ranked_length.
Qed.

Section MoreSearch.
Variable E : Env.

Ltac from_search H lem :=
  rewrite lem in H;
  repeat match type of H with
         | context [external ?w] => destruct (external w) as [[[]|?] ?]
         end;
  inversion H; subst; reflexivity.

Ltac store_of_search lem :=
  intros; rewrite lem;
  repeat match goal with
         | |- context [external ?w] =>
             let H := fresh "H" in
             pose proof (external_store w) as H;
             destruct (external w) as [[[]|?] ?];
             cbn [snd] in H; destruct H as (? & ? & ?)
         end;
  cbn [snd]; split; congruence.

(** X12.  Each of the five searches ranks: its results come in descending
    order of similarity; there are [top_k] of them, or as many as there are
    rows in scope if these are fewer; a [top_k] of 0 is read as no [top_k]
    and gives the configured default; and, whether it returns or raises,
    the search leaves the video table and the clips as they are. *)
Theorem searches_rank_descending :
  ranks_descending SearchResult.similarity
    (SPEECH_SIMILARITY_SEARCH_TOP_K (settings E))
    (fun ids w =>
       length (VideoSearchEngine.where_video_ids AudioView.video_id ids
                 (Pxt.audio_chunks_view E w)))
    (VideoSearchEngine.search_by_speech E)
  /\ ranks_descending SearchResult.similarity
    (CAPTION_SIMILARITY_SEARCH_TOP_K (settings E))
    (fun ids w =>
       length (VideoSearchEngine.where_video_ids FramesView.video_id ids
                 (Pxt.frames_view E w)))
    (VideoSearchEngine.search_by_caption E)
  /\ ranks_descending SearchResult.similarity
    (IMAGE_SIMILARITY_SEARCH_TOP_K (settings E))
    (fun ids w =>
       length (VideoSearchEngine.where_video_ids FramesView.video_id ids
                 (Pxt.frames_view E w)))
    (VideoSearchEngine.search_by_image E)
  /\ ranks_descending SpeechInfo.similarity
    (SPEECH_SIMILARITY_SEARCH_TOP_K (settings E))
    (fun ids w =>
       length (VideoSearchEngine.where_video_ids AudioView.video_id ids
                 (Pxt.audio_chunks_view E w)))
    (VideoSearchEngine.get_speech_info E)
  /\ ranks_descending CaptionInfo.similarity
    (CAPTION_SIMILARITY_SEARCH_TOP_K (settings E))
    (fun ids w =>
       length (VideoSearchEngine.where_video_ids FramesView.video_id ids
                 (Pxt.frames_view E w)))
    (VideoSearchEngine.get_caption_info E).
Proof.
  split; [|split; [|split; [|split]]].
  - apply (ranks_descending_intro AudioView.video_id SearchResult.similarity
             VideoSearchEngine.speech_clip (speech_sims E)).
    + reflexivity.
    + intros q k ids w rs w' H. from_search H search_by_speech_run.
    + reflexivity.
    + store_of_search search_by_speech_run.
  - apply (ranks_descending_intro FramesView.video_id SearchResult.similarity
             (VideoSearchEngine.frame_clip E) (caption_sims E)).
    + reflexivity.
    + intros q k ids w rs w' H. from_search H search_by_caption_run.
    + reflexivity.
    + store_of_search search_by_caption_run.
  - apply (ranks_descending_intro FramesView.video_id SearchResult.similarity
             (VideoSearchEngine.frame_clip E) (image_sims E)).
    + reflexivity.
    + intros q k ids w rs w' H. from_search H search_by_image_run.
    + reflexivity.
    + store_of_search search_by_image_run.
  - apply (ranks_descending_intro AudioView.video_id SpeechInfo.similarity
             VideoSearchEngine.speech_info (speech_sims E)).
    + reflexivity.
    + intros q k ids w rs w' H. from_search H get_speech_info_run.
    + reflexivity.
    + store_of_search get_speech_info_run.
  - apply (ranks_descending_intro FramesView.video_id CaptionInfo.similarity
             VideoSearchEngine.caption_info (caption_sims E)).
    + reflexivity.
    + intros q k ids w rs w' H. from_search H get_caption_info_run.
    + reflexivity.
    + store_of_search get_caption_info_run.
Qed.

End MoreSearch.

Lemma searches_rank_descending_witness :
  exists rs,
    VideoSearchEngine.search_by_caption Demo.env "show the chart"
      (Some 2%nat) None Demo.both = (Ok rs, Demo.both)
    /\ length rs = 2%nat
    /\ StronglySorted
         (fun a b => (SearchResult.similarity b <= SearchResult.similarity a)%Q)
         rs.
Proof.
  eexists. split; [vm_compute; reflexivity|].
  destruct (proj1 (proj2 (searches_rank_descending Demo.env))
              "show the chart" (Some 2%nat) None Demo.both)
    as (_ & _ & _ & H).
  destruct (H _ _ ltac:(vm_compute; reflexivity)) as [Hs Hl].
  split; [exact Hl | exact Hs].
Defined.

(** ** video/clip_extractor.py, continued *)

Section MoreExtraction.
Variable E : Env.

Lemma search_by_speech_ok query top_k video_ids w :
  faults w = [] ->
  VideoSearchEngine.search_by_speech E query top_k video_ids w =
  (Ok (map (VideoSearchEngine.speech_clip (speech_sims E query))
         (ranked AudioView.video_id (speech_sims E query) video_ids
            (Py.or_default top_k (SPEECH_SIMILARITY_SEARCH_TOP_K (settings E)))
            (Pxt.audio_chunks_view E w))), w).
Proof.
  intros Hf. now rewrite search_by_speech_run, (external_no_faults w Hf).
Qed.

Lemma search_by_caption_ok query top_k video_ids w :
  faults w = [] ->
  VideoSearchEngine.search_by_caption E query top_k video_ids w =
  (Ok (map (VideoSearchEngine.frame_clip E (caption_sims E query))
         (ranked FramesView.video_id (caption_sims E query) video_ids
            (Py.or_default top_k (CAPTION_SIMILARITY_SEARCH_TOP_K (settings E)))
            (Pxt.frames_view E w))), w).
Proof.
  intros Hf. now rewrite search_by_caption_run, (external_no_faults w Hf).
Qed.

(** X13.  A query with nothing in scope cuts nothing.  With no failing
    external call: when no audio chunk and no frame is in the scope of
    [video_ids] (the ids are all unknown, or the tables have been emptied),
    [extract_from_text_query] returns the text result "No matching video
    segments found..." and the world is unchanged; when no frame is in
    scope, [extract_from_image] returns the text result "No visually
    similar video segments found..." and the world is unchanged. *)
Theorem nothing_in_scope_cuts_nothing (video_ids : option (list string))
  (w : World) :
  faults w = [] ->
  VideoSearchEngine.where_video_ids FramesView.video_id video_ids
    (Pxt.frames_view E w) = [] ->
  (forall image_base64,
      VideoClipExtractor.extract_from_image E image_base64 video_ids w
      = (Ok {| type := text;
               content := "No visually similar video segments found. Try a different image or check if videos are processed." |},
         w))
  /\ (VideoSearchEngine.where_video_ids AudioView.video_id video_ids
        (Pxt.audio_chunks_view E w) = [] ->
      forall query,
        VideoClipExtractor.extract_from_text_query E query video_ids w
        = (Ok {| type := text;
                 content := "No matching video segments found. Try rephrasing your query or check if videos are processed." |},
           w)).
Proof.
  intros Hf Hframes. split.
  - intros image_base64.
    unfold VideoClipExtractor.extract_from_image, try_except, bind.
    rewrite (search_by_image_ok E _ _ _ w Hf).
    rewrite (ranked_of_nothing _ _ _ _ _ Hframes). reflexivity.
  - intros Haudio query.
    unfold VideoClipExtractor.extract_from_text_query, try_except, bind.
    rewrite (search_by_speech_ok _ _ _ w Hf).
    rewrite (ranked_of_nothing _ _ _ _ _ Haudio).
    rewrite (search_by_caption_ok _ _ _ w Hf).
    rewrite (ranked_of_nothing _ _ _ _ _ Hframes). reflexivity.
Qed.

(** One run of [_extract_clip], by the first entry of the schedule. *)
Lemma _extract_clip_run (video_path : string) (start_time end_time : Q)
  (w : World) :
  let run :=
    VideoClipExtractor._extract_clip E video_path start_time end_time w in
  let destination :=
    "videos/ai_responses/" ++ uuid4 E (uuid_count w) ++ ".mp4" in
  uuid_count (snd run) = S (uuid_count w)
  /\ video_table (snd run) = video_table w
  /\ match fst run with
     | Ok out =>
         out = destination
         /\ clips (snd run) =
            {| clip_video_path := video_path;
               clip_start_time := start_time;
               clip_end_time := end_time;
               clip_output_path := destination |} :: clips w
     | Raise e =>
         (exists msg, e = ClipExtractionError msg)
         /\ clips (snd run) = clips w
     end.
Proof.
  cbv zeta.
  unfold VideoClipExtractor._extract_clip, try_except, bind, gets, modify,
    ret, raise, external.
  fields.
  destruct (faults w) as [|[e|] fs]; fields; cbn [fst snd]; fields.
  - repeat split.
  - destruct e; cbn [fst snd]; fields; repeat split; eauto.
  - repeat split.
Qed.


Lemma _get_video_path_table video_id w res w' :
  VideoClipExtractor._get_video_path video_id w = (res, w') ->
  video_table w' = video_table w.
Proof.
  unfold VideoClipExtractor._get_video_path, Pxt.collect, bind, gets, ret,
    raise.
  pose proof (external_store w) as (Ht & _).
  destruct (external w) as [[[]|e'] w2]; cbn [snd] in Ht.
  - destruct (filter _ (video_table w)) as [|r rest];
      [|destruct (VideoTable.video r =? "")];
      intros H; inversion H; subst; exact Ht.
  - intros H; inversion H; subst; exact Ht.
Qed.

(** The steps after the best clip is chosen. *)
Lemma cut_clip_run (best : SearchResult.t) w res w' :
  (video_path <- VideoClipExtractor._get_video_path
      (SearchResult.video_id best) ;;
   relative_path <- VideoClipExtractor._extract_clip E video_path
      (SearchResult.start_time best) (SearchResult.end_time best) ;;
   ret {| type := video_t; content := relative_path |}) w = (res, w') ->
  video_table w' = video_table w
  /\ match res with
     | Ok r =>
         type r = video_t
         /\ exists path,
              clips w' =
              {| clip_video_path := path;
                 clip_start_time := SearchResult.start_time best;
                 clip_end_time := SearchResult.end_time best;
                 clip_output_path := content r |} :: clips w
     | Raise e => clips w' = clips w
     end.
Proof.
  unfold bind.
  destruct (VideoClipExtractor._get_video_path (SearchResult.video_id best) w)
    as [[path|e] w1] eqn:Hp;
    pose proof (_get_video_path_clips _ _ _ _ Hp) as Hc;
    pose proof (_get_video_path_table _ _ _ _ Hp) as Ht.
  2:{ intros H; inversion H; subst. split; assumption. }
  pose proof (_extract_clip_run path (SearchResult.start_time best)
                (SearchResult.end_time best) w1) as Hx.
  cbv zeta in Hx.
  destruct (VideoClipExtractor._extract_clip E path _ _ w1) as [[out|e] w2];
    cbn [fst snd] in Hx; intros H; inversion H; subst.
  - destruct Hx as (_ & Ht2 & -> & Hc2). cbn [type content].
    split; [congruence|]. split; [reflexivity|].
    exists path. rewrite Hc2, Hc. reflexivity.
  - destruct Hx as (_ & Ht2 & _ & Hc2). split; congruence.
Qed.

End MoreExtraction.

Section ClipResults.
Variable E : Env.

Ltac store_of lem :=
  cbv zeta; rewrite lem;
  repeat match goal with
         | |- context [external ?w] =>
             let H := fresh "H" in
             pose proof (external_store w) as H;
             destruct (external w) as [[[]|?] ?];
             cbn [snd] in H; destruct H as (? & ? & ?)
         end;
  cbn [snd]; split; congruence.

Lemma search_by_speech_store query top_k video_ids w :
  let run := VideoSearchEngine.search_by_speech E query top_k video_ids w in
  video_table (snd run) = video_table w /\ clips (snd run) = clips w.
Proof. store_of search_by_speech_run. Qed.

Lemma search_by_caption_store query top_k video_ids w :
  let run := VideoSearchEngine.search_by_caption E query top_k video_ids w in
  video_table (snd run) = video_table w /\ clips (snd run) = clips w.
Proof. store_of search_by_caption_run. Qed.

Lemma search_by_image_store image_base64 top_k video_ids w :
  let run :=
    VideoSearchEngine.search_by_image E image_base64 top_k video_ids w in
  video_table (snd run) = video_table w /\ clips (snd run) = clips w.
Proof. store_of search_by_image_run. Qed.

(** The [except] clauses of the two extraction methods. *)
Lemma extraction_handler_text (e : exn) w :
  exists r,
    match e with
    | ClipExtractionError _ => ret {| type := text; content := str e |}
    | _ =>
        ret {| type := text;
               content := "An unexpected error occurred. Please try again or contact support." |}
    end w = (Ok r, w)
    /\ type r = text.
Proof. destruct e; eexists; split; reflexivity. Qed.

(** What a run of the steps from the best clip on, followed by the
    [except] clauses, gives. *)
Lemma cut_or_report (best : SearchResult.t) w0 w :
  video_table w = video_table w0 ->
  clips w = clips w0 ->
  exists r w',
    (let (res, w3) :=
       (video_path <- VideoClipExtractor._get_video_path
           (SearchResult.video_id best) ;;
        relative_path <- VideoClipExtractor._extract_clip E video_path
           (SearchResult.start_time best) (SearchResult.end_time best) ;;
        ret {| type := video_t; content := relative_path |}) w in
     match res with
     | Ok a => (Ok a, w3)
     | Raise e =>
         match e with
         | ClipExtractionError _ => ret {| type := text; content := str e |}
         | _ =>
             ret {| type := text;
                    content := "An unexpected error occurred. Please try again or contact support." |}
         end w3
     end) = (Ok r, w')
    /\ video_table w' = video_table w0
    /\ match type r with
       | video_t =>
           exists c, clips w' = c :: clips w0
                     /\ clip_output_path c = content r
                     /\ clip_start_time c = SearchResult.start_time best
                     /\ clip_end_time c = SearchResult.end_time best
       | text => clips w' = clips w0
       end.
Proof.
  intros Ht Hc.
  match goal with
  | |- context [let (_, _) := ?m w in _] =>
      destruct (m w) as [[r|e] w3] eqn:Hcut
  end;
    apply cut_clip_run in Hcut; destruct Hcut as [Ht3 Hcut].
  - destruct Hcut as (Hty & path & Hclips).
    exists r, w3. split; [reflexivity|]. split; [congruence|].
    rewrite Hty. eexists. split; [rewrite Hclips, Hc; reflexivity|].
    repeat split.
  - destruct (extraction_handler_text e w3) as (r & -> & Hty).
    exists r, w3. split; [reflexivity|]. split; [congruence|].
    rewrite Hty. congruence.
Qed.

(** X15.  The two extraction methods never raise and never touch the video
    table, and their result tells what was written: a result of type video
    means exactly one clip was cut in this call and its content is the
    path of that clip; a result of type text means no clip was cut. *)
Theorem clip_result_names_the_clip_cut (video_ids : option (list string))
  (w : World) :
  (forall query,
      exists r w',
        VideoClipExtractor.extract_from_text_query E query video_ids w
          = (Ok r, w')
        /\ video_table w' = video_table w
        /\ match type r with
           | video_t =>
               exists c, clips w' = c :: clips w
                         /\ clip_output_path c = content r
           | text => clips w' = clips w
           end)
  /\ (forall image_base64,
        exists r w',
          VideoClipExtractor.extract_from_image E image_base64 video_ids w
            = (Ok r, w')
          /\ video_table w' = video_table w
          /\ match type r with
             | video_t =>
                 exists c, clips w' = c :: clips w
                           /\ clip_output_path c = content r
             | text => clips w' = clips w
             end).
Proof.
  split.
  - intros query.
    unfold VideoClipExtractor.extract_from_text_query, try_except.
    unfold bind at 1.
    pose proof (search_by_speech_store query
                  (Some (VIDEO_CLIP_SPEECH_SEARCH_TOP_K (settings E)))
                  video_ids w) as [Ht1 Hc1]. cbv zeta in Ht1, Hc1.
    destruct (VideoSearchEngine.search_by_speech E query _ video_ids w)
      as [[sp|e] w1]; cbn [snd] in Ht1, Hc1.
    2:{ destruct (extraction_handler_text e w1) as (r & -> & Hty).
        exists r, w1. split; [reflexivity|]. split; [exact Ht1|].
        now rewrite Hty. }
    unfold bind at 1.
    pose proof (search_by_caption_store query
                  (Some (VIDEO_CLIP_CAPTION_SEARCH_TOP_K (settings E)))
                  video_ids w1) as [Ht2 Hc2]. cbv zeta in Ht2, Hc2.
    destruct (VideoSearchEngine.search_by_caption E query _ video_ids w1)
      as [[cp|e] w2]; cbn [snd] in Ht2, Hc2.
    2:{ destruct (extraction_handler_text e w2) as (r & -> & Hty).
        exists r, w2. split; [reflexivity|]. split; [congruence|].
        rewrite Hty. congruence. }
    assert (Ht : video_table w2 = video_table w) by congruence.
    assert (Hc : clips w2 = clips w) by congruence.
    assert (Hgo : exists r w',
      (let (res, w3) :=
         (best_clip <- VideoClipExtractor._select_best_clip sp cp ;;
          video_path <- VideoClipExtractor._get_video_path
             (SearchResult.video_id best_clip) ;;
          relative_path <- VideoClipExtractor._extract_clip E video_path
             (SearchResult.start_time best_clip)
             (SearchResult.end_time best_clip) ;;
          ret {| type := video_t; content := relative_path |}) w2 in
       match res with
       | Ok a => (Ok a, w3)
       | Raise e =>
           match e with
           | ClipExtractionError _ =>
               ret {| type := text; content := str e |}
           | _ =>
               ret {| type := text;
                      content := "An unexpected error occurred. Please try again or contact support." |}
           end w3
       end) = (Ok r, w')
      /\ video_table w' = video_table w
      /\ match type r with
         | video_t =>
             exists c, clips w' = c :: clips w
                       /\ clip_output_path c = content r
         | text => clips w' = clips w
         end).
    { unfold bind at 1.
      destruct (VideoClipExtractor._select_best_clip sp cp w2)
        as [[best|e] w3] eqn:Hs;
        apply _select_best_clip_cases in Hs; destruct Hs as [-> _].
      - destruct (cut_or_report best w w2 Ht Hc)
          as (r & w' & Hrun & Ht' & Hr).
        exists r, w'. split; [exact Hrun|]. split; [exact Ht'|].
        destruct (type r); [exact Hr|].
        destruct Hr as (c & H1 & H2 & _). eauto.
      - destruct (extraction_handler_text e w2) as (r & -> & Hty).
        exists r, w2. split; [reflexivity|]. split; [exact Ht|].
        now rewrite Hty. }
    destruct sp as [|s sp']; [destruct cp as [|c cp']|];
      [|exact Hgo|exact Hgo].
    eexists. exists w2. split; [reflexivity|]. split; [exact Ht|].
    exact Hc.
  - intros image_base64.
    unfold VideoClipExtractor.extract_from_image, try_except.
    unfold bind at 1.
    pose proof (search_by_image_store image_base64
                  (Some (VIDEO_CLIP_IMAGE_SEARCH_TOP_K (settings E)))
                  video_ids w) as [Ht1 Hc1]. cbv zeta in Ht1, Hc1.
    destruct (VideoSearchEngine.search_by_image E image_base64 _ video_ids w)
      as [[rs|e] w1]; cbn [snd] in Ht1, Hc1.
    2:{ destruct (extraction_handler_text e w1) as (r & -> & Hty).
        exists r, w1. split; [reflexivity|]. split; [exact Ht1|].
        now rewrite Hty. }
    destruct rs as [|top rest].
    + eexists. exists w1. split; [reflexivity|]. split; [exact Ht1|].
      exact Hc1.
    + destruct (cut_or_report top w w1 Ht1 Hc1)
        as (r & w' & Hrun & Ht' & Hr).
      exists r, w'. split; [exact Hrun|]. split; [exact Ht'|].
      destruct (type r); [exact Hr|].
      destruct Hr as (c & H1 & H2 & _). eauto.
Qed.

Lemma audio_chunks_view_row w a :
  In a (Pxt.audio_chunks_view E w) ->
  exists v, In v (video_table w)
    /\ VideoTable.video_id v = AudioView.video_id a.
Proof.
  unfold Pxt.audio_chunks_view. intros H. apply in_flat_map in H.
  destruct H as (v & Hv & Ha). exists v. split; [exact Hv|].
  unfold Pxt.audio_of in Ha. apply in_map_iff in Ha.
  destruct Ha as ([[s e] txt] & <- & _). reflexivity.
Qed.

(** With no failing call, the steps from the best clip on cut it. *)
Lemma cut_clip_ok (best : SearchResult.t) w :
  faults w = [] ->
  (forall v, In v (video_table w) -> VideoTable.video v <> "") ->
  (exists v, In v (video_table w)
             /\ VideoTable.video_id v = SearchResult.video_id best) ->
  exists v,
    In v (video_table w)
    /\ VideoTable.video_id v = SearchResult.video_id best
    /\ (video_path <- VideoClipExtractor._get_video_path
           (SearchResult.video_id best) ;;
        relative_path <- VideoClipExtractor._extract_clip E video_path
           (SearchResult.start_time best) (SearchResult.end_time best) ;;
        ret {| type := video_t; content := relative_path |}) w
       = (Ok {| type := video_t;
                content := "videos/ai_responses/" ++ uuid4 E (uuid_count w)
                           ++ ".mp4" |},
          with_clips (S (uuid_count w))
            ({| clip_video_path := VideoTable.video v;
                clip_start_time := SearchResult.start_time best;
                clip_end_time := SearchResult.end_time best;
                clip_output_path :=
                  "videos/ai_responses/" ++ uuid4 E (uuid_count w)
                  ++ ".mp4" |} :: clips w) w).
Proof.
  intros Hf Hpaths (v & Hv & Hid).
  destruct (filter_nonempty
              (fun r => VideoTable.video_id r =? SearchResult.video_id best)
              (video_table w) v Hv) as (y & rest & Hy & Hiny & Hidy).
  { now apply String.eqb_eq. }
  apply String.eqb_eq in Hidy.
  exists y. split; [exact Hiny|]. split; [exact Hidy|].
  unfold bind.
  rewrite (_get_video_path_ok _ w y rest Hf Hy (Hpaths y Hiny)).
  rewrite (_extract_clip_ok E _ _ _ w Hf). reflexivity.
Qed.

(** X16.  Which clip a text query cuts.  With no failing external call and
    a stored path for every video, let [best] be the first speech result
    when its similarity is at least that of the first caption result (at
    least 0 when there is no caption result), and the first caption result
    when its similarity is greater than that of the first speech result
    (greater than 0 when there is no speech result).  Then
    [extract_from_text_query] returns a result of type video whose content
    is [videos/ai_responses/<uuid>.mp4], and the one clip it cuts is the
    window of [best] out of the stored file of the video of [best]. *)
Theorem text_query_cuts_best_match (query : string)
  (video_ids : option (list string)) (w : World)
  (speech_results caption_results : list SearchResult.t)
  (best : SearchResult.t) :
  faults w = [] ->
  (forall v, In v (video_table w) -> VideoTable.video v <> "") ->
  VideoSearchEngine.search_by_speech E query
    (Some (VIDEO_CLIP_SPEECH_SEARCH_TOP_K (settings E))) video_ids w
    = (Ok speech_results, w) ->
  VideoSearchEngine.search_by_caption E query
    (Some (VIDEO_CLIP_CAPTION_SEARCH_TOP_K (settings E))) video_ids w
    = (Ok caption_results, w) ->
  (hd_error speech_results = Some best
   /\ match caption_results with
      | [] => (0 <= SearchResult.similarity best)%Q
      | c :: _ => (SearchResult.similarity c <= SearchResult.similarity best)%Q
      end)
  \/ (hd_error caption_results = Some best
      /\ match speech_results with
         | [] => ~ (SearchResult.similarity best <= 0)%Q
         | s :: _ =>
             ~ (SearchResult.similarity best <= SearchResult.similarity s)%Q
         end) ->
  exists v,
    In v (video_table w)
    /\ VideoTable.video_id v = SearchResult.video_id best
    /\ VideoClipExtractor.extract_from_text_query E query video_ids w
       = (Ok {| type := video_t;
                content := "videos/ai_responses/" ++ uuid4 E (uuid_count w)
                           ++ ".mp4" |},
          with_clips (S (uuid_count w))
            ({| clip_video_path := VideoTable.video v;
                clip_start_time := SearchResult.start_time best;
                clip_end_time := SearchResult.end_time best;
                clip_output_path :=
                  "videos/ai_responses/" ++ uuid4 E (uuid_count w)
                  ++ ".mp4" |} :: clips w) w).
Proof.
  intros Hf Hpaths Hsp Hcp Hbest.
  assert (Hrow : exists v, In v (video_table w)
                   /\ VideoTable.video_id v = SearchResult.video_id best).
  { destruct Hbest as [[Hhd _]|[Hhd _]].
    - rewrite (search_by_speech_ok E _ _ _ w Hf) in Hsp.
      inversion Hsp as [Hrs]. rewrite <- Hrs in Hhd.
      destruct (ranked _ _ _ _ _) as [|a l] eqn:Hr; [discriminate|].
      inversion Hhd; subst best.
      apply (audio_chunks_view_row w a).
      apply (ranked_incl AudioView.video_id (speech_sims E query) video_ids
               (Py.or_default
                  (Some (VIDEO_CLIP_SPEECH_SEARCH_TOP_K (settings E)))
                  (SPEECH_SIMILARITY_SEARCH_TOP_K (settings E)))).
      rewrite Hr. now left.
    - rewrite (search_by_caption_ok E _ _ _ w Hf) in Hcp.
      inversion Hcp as [Hrs]. rewrite <- Hrs in Hhd.
      destruct (ranked _ _ _ _ _) as [|f l] eqn:Hr; [discriminate|].
      inversion Hhd; subst best.
      apply (frames_view_row E w f).
      apply (ranked_incl FramesView.video_id (caption_sims E query) video_ids
               (Py.or_default
                  (Some (VIDEO_CLIP_CAPTION_SEARCH_TOP_K (settings E)))
                  (CAPTION_SIMILARITY_SEARCH_TOP_K (settings E)))).
      rewrite Hr. now left. }
  destruct (cut_clip_ok best w Hf Hpaths Hrow) as (v & Hv & Hid & Hcut).
  exists v. split; [exact Hv|]. split; [exact Hid|].
  assert (Hsel : VideoClipExtractor._select_best_clip speech_results
                   caption_results w = (Ok best, w)).
  { destruct Hbest as [[Hhd Hcmp]|[Hhd Hcmp]].
    - destruct speech_results as [|s sp]; [discriminate|].
      inversion Hhd; subst s.
      destruct caption_results as [|c cp].
      + rewrite _select_best_clip_speech_only.
        apply Qle_bool_iff in Hcmp. now rewrite Hcmp.
      + rewrite _select_best_clip_both.
        apply Qle_bool_iff in Hcmp. now rewrite Hcmp.
    - destruct caption_results as [|c cp]; [discriminate|].
      inversion Hhd; subst c.
      destruct speech_results as [|s sp].
      + rewrite _select_best_clip_caption_only.
        destruct (Qle_bool (SearchResult.similarity best) 0) eqn:Hq;
          [apply Qle_bool_iff in Hq; contradiction | reflexivity].
      + rewrite _select_best_clip_both.
        destruct (Qle_bool (SearchResult.similarity best)
                    (SearchResult.similarity s)) eqn:Hq;
          [apply Qle_bool_iff in Hq; contradiction | reflexivity]. }
  unfold VideoClipExtractor.extract_from_text_query, try_except.
  unfold bind at 1. rewrite Hsp. unfold bind at 1. rewrite Hcp.
  assert (Hgo :
    (best_clip <- VideoClipExtractor._select_best_clip speech_results
        caption_results ;;
     video_path <- VideoClipExtractor._get_video_path
        (SearchResult.video_id best_clip) ;;
     relative_path <- VideoClipExtractor._extract_clip E video_path
        (SearchResult.start_time best_clip)
        (SearchResult.end_time best_clip) ;;
     ret {| type := video_t; content := relative_path |}) w
    = (Ok {| type := video_t;
             content := "videos/ai_responses/" ++ uuid4 E (uuid_count w)
                        ++ ".mp4" |},
       with_clips (S (uuid_count w))
         ({| clip_video_path := VideoTable.video v;
             clip_start_time := SearchResult.start_time best;
             clip_end_time := SearchResult.end_time best;
             clip_output_path :=
               "videos/ai_responses/" ++ uuid4 E (uuid_count w)
               ++ ".mp4" |} :: clips w) w)).
  { unfold bind at 1. rewrite Hsel. exact Hcut. }
  destruct speech_results as [|s sp]; [destruct caption_results as [|c cp]|].
  - destruct Hbest as [[Hhd _]|[Hhd _]]; discriminate.
  - rewrite Hgo. reflexivity.
  - rewrite Hgo. reflexivity.
Qed.

End ClipResults.

Lemma nothing_in_scope_cuts_nothing_witness :
  VideoClipExtractor.extract_from_text_query Demo.env "show the chart"
    (Some ["v-unknown"]) Demo.both
  = (Ok {| type := text;
           content := "No matching video segments found. Try rephrasing your query or check if videos are processed." |},
     Demo.both).
Proof.
  apply (proj2 (nothing_in_scope_cuts_nothing Demo.env (Some ["v-unknown"])
                  Demo.both eq_refl eq_refl)).
  reflexivity.
Defined.

Lemma text_query_cuts_best_match_witness :
  exists v,
    In v (video_table Demo.both)
    /\ VideoTable.video_id v = "v-talk"
    /\ fst (VideoClipExtractor.extract_from_text_query Demo.env
              "show the chart" None Demo.both)
       = Ok {| type := video_t;
               content := "videos/ai_responses/clip-0.mp4" |}.
Proof.
  destruct (text_query_cuts_best_match Demo.env "show the chart" None
              Demo.both
              [{| SearchResult.video_id := "v-talk";
                  SearchResult.start_time := 8;
                  SearchResult.end_time := 18;
                  SearchResult.similarity := 76 # 100 |}]
              [{| SearchResult.video_id := "v-talk";
                  SearchResult.start_time := inject_Z 15000 / 1000 - 5;
                  SearchResult.end_time := inject_Z 15000 / 1000 + 5;
                  SearchResult.similarity := 81 # 100 |}]
              {| SearchResult.video_id := "v-talk";
                 SearchResult.start_time := inject_Z 15000 / 1000 - 5;
                 SearchResult.end_time := inject_Z 15000 / 1000 + 5;
                 SearchResult.similarity := 81 # 100 |})
    as (v & Hv & Hid & Hrun).
  - reflexivity.
  - intros v [<-|[<-|[]]]; discriminate.
  - reflexivity.
  - reflexivity.
  - right. split; [reflexivity|]. intros H. vm_compute in H.
    apply H. reflexivity.
  - exists v. split; [exact Hv|]. split; [exact Hid|].
    rewrite Hrun. reflexivity.
Defined.

(** ** tools.py, continued *)

Section MoreTools.
Variable E : Env.









End MoreTools.




(** ** [_get_video_ids_from_names] and [extract_text_from_chunk] *)

(** X20.  [_get_video_ids_from_names] returns, for an empty list of
    names, the empty set without querying the store.  Whenever it returns,
    the video table is unchanged and the ids returned, each once, are
    exactly the ids of the records whose display name is one of the names
    given; names no record carries contribute nothing. *)
Theorem video_ids_from_names_spec (video_names : list string) (w : World) :
  VideoSearchEngine._get_video_ids_from_names [] w = (Ok [], w)
  /\ forall ids w',
       VideoSearchEngine._get_video_ids_from_names video_names w
         = (Ok ids, w') ->
       video_table w' = video_table w
       /\ NoDup ids
       /\ forall id,
            In id ids
            <-> exists r, In r (video_table w)
                          /\ In (VideoTable.video_name r) video_names
                          /\ VideoTable.video_id r = id.
Proof.
  split; [reflexivity|].
  intros ids w'. destruct video_names as [|n names].
  - intros H. inversion H; subst. split; [reflexivity|].
    split; [constructor|]. intros id. split; [intros []|].
    intros (r & _ & [] & _).
  - unfold VideoSearchEngine._get_video_ids_from_names, Pxt.collect, bind,
      gets, ret.
    pose proof (external_store w) as (Ht & _).
    destruct (external w) as [[[]|e] w1]; cbn [snd] in Ht;
      intros H; inversion H; subst.
    split; [exact Ht|]. split; [apply NoDup_nodup|].
    intros id. rewrite nodup_In, in_map_iff. split.
    + intros (r & Hid & Hr). apply filter_In in Hr. destruct Hr as [Hr Hn].
      apply (isin_In (n :: names) (VideoTable.video_name r)) in Hn. eauto.
    + intros (r & Hr & Hn & Hid). exists r. split; [exact Hid|].
      apply filter_In. split; [exact Hr|].
      now apply (isin_In (n :: names) (VideoTable.video_name r)).
Qed.


Lemma video_ids_from_names_spec_witness :
  NoDup ["v-talk"; "v-silent"].
Proof.
  destruct (proj2 (video_ids_from_names_spec ["silent"; "talk"; "other"]
                     Demo.both) ["v-talk"; "v-silent"] Demo.both)
    as (_ & H & _).
  - vm_compute. reflexivity.
  - exact H.
Defined.


Lemma delete_video_only_removes_witness :
  In (Demo.row "v-silent" Demo.silent_path "silent" DONE (Some 1%Z))
     (video_table Demo.both).
Proof.
  apply (delete_video_only_removes "v-talk" Demo.both).
  vm_compute. left. reflexivity.
Defined.
